(** * concurrent_log_analyzer: a shallow embedding of [main.go]

    The development follows the source top-down: first the pieces of the Go
    runtime and standard library the program calls ([strings.Split],
    [strings.TrimSpace], [strconv.ParseInt], [time.Parse] with the program's
    fixed layout, [sort.SliceStable], ranging over a map), then the
    program's own functions under their source names, then the theorems.

    Go strings are byte sequences: they are [string] here, one [ascii] per
    byte.  [int64] values are [Z] with the wrap-around of the 64-bit two's
    complement written out ([wrap64]), and so are [int] values, [int]
    being 64 bits wide on the platforms the program is built for.  A
    panic is an outcome of its own ([Panic]), apart from the [error]
    values a function returns ([goerror]).  A Go map is a
    [gmap string Z]; the order in which a [for ... range] statement visits
    its keys is not specified by the language, so every function that
    ranges over a map takes that order as an argument, constrained by
    [map_range]. *)

From Stdlib Require Import ZArith List Ascii String Lia Bool.
From stdpp Require Import base tactics option list strings pretty gmap fin_maps sorting.

Local Open Scope string_scope.
Local Open Scope list_scope.
Local Open Scope stdpp_scope.
Local Open Scope Z_scope.

(* ===================================================================== *)
(** * Go runtime *)
(* ===================================================================== *)

Module Go.

(** ** Fixed-width integers *)

Definition wrap64 (z : Z) : Z := (z + 2 ^ 63) mod 2 ^ 64 - 2 ^ 63.

Definition add64 (a b : Z) : Z := wrap64 (a + b).

(** ** Results of calls that can panic *)

Inductive outcome (A : Type) : Type :=
| Ok (a : A)
| Panic (msg : string).
Arguments Ok {A} a.
Arguments Panic {A} msg.

(** A panic propagates through the calls that follow it: [outcome] is a
    monad, written with stdpp's [x ← c; k]. *)
#[global] Instance outcome_bind : MBind outcome := fun A B f x =>
  match x with
  | Ok a => f a
  | Panic msg => Panic msg
  end.

#[global] Instance outcome_ret : MRet outcome := fun A a => Ok a.

(** The run-time panic of an index expression out of range.  The indices
    the Go runtime prints in the message are left out. *)
Definition index_out_of_range : string := "runtime error: index out of range".

Definition index {A : Type} (l : list A) (i : nat) : outcome A :=
  match l !! i with
  | Some a => Ok a
  | None => Panic index_out_of_range
  end.

(** ** Errors, as the program sees them *)

Inductive goerror : Type :=
| errorString (s : string)   (* errors.New(s) *)
| ErrSyntax                  (* *strconv.NumError wrapping strconv.ErrSyntax *)
| ErrRange.                  (* *strconv.NumError wrapping strconv.ErrRange *)

(** ** Bytes *)

Definition byte (n : N) : ascii := ascii_of_N n.
Definition code (c : ascii) : N := N_of_ascii c.

(** ** strings.Split, for a separator of one byte *)

Fixpoint Split (s : string) (sep : ascii) : list string :=
  match s with
  | EmptyString => [EmptyString]
  | String c s' =>
      if Ascii.eqb c sep then EmptyString :: Split s' sep
      else match Split s' sep with
           | [] => [String c EmptyString]
           | p :: ps => String c p :: ps
           end
  end.

(** ** strings.TrimSpace

    [TrimSpace] removes, at both ends, every rune for which
    [unicode.IsSpace] holds, decoding UTF-8 forwards at the left end and
    backwards at the right end.  An invalid sequence decodes to U+FFFD,
    which is not a space, so a rune at either end is a space exactly when
    the bytes there are the UTF-8 encoding of a white-space code point:
    these encodings are listed in [space_encodings]. *)

Definition space_encodings : list (list ascii) :=
  map (map byte)
    [ [9]; [10]; [11]; [12]; [13]; [32]          (* \t \n \v \f \r ' ' *)
    ; [194; 133]; [194; 160]                     (* U+0085, U+00A0 *)
    ; [225; 154; 128]                            (* U+1680 *)
    ; [226; 128; 128]; [226; 128; 129]; [226; 128; 130]; [226; 128; 131]
    ; [226; 128; 132]; [226; 128; 133]; [226; 128; 134]; [226; 128; 135]
    ; [226; 128; 136]; [226; 128; 137]; [226; 128; 138]   (* U+2000..U+200A *)
    ; [226; 128; 168]; [226; 128; 169]; [226; 128; 175]   (* U+2028, U+2029, U+202F *)
    ; [226; 129; 159]                            (* U+205F *)
    ; [227; 128; 128] ]%N.                       (* U+3000 *)

(** [cut p s] is the rest of [s] after its prefix [p]. *)
Fixpoint cut (p s : list ascii) : option (list ascii) :=
  match p, s with
  | [], _ => Some s
  | a :: p', b :: s' => if Ascii.eqb a b then cut p' s' else None
  | _ :: _, [] => None
  end.

(** The rest of [s] after one leading encoding out of [encs]. *)
Fixpoint cut_any (encs : list (list ascii)) (s : list ascii) : option (list ascii) :=
  match encs with
  | [] => None
  | e :: encs' =>
      match cut e s with
      | Some r => Some r
      | None => cut_any encs' s
      end
  end.

(** Cutting leading encodings for as long as there is one; [fuel] bounds
    the number of cuts, and the length of [s] is enough. *)
Fixpoint trim_left (encs : list (list ascii)) (fuel : nat) (s : list ascii) : list ascii :=
  match fuel with
  | O => s
  | S fuel' =>
      match cut_any encs s with
      | Some r => trim_left encs fuel' r
      | None => s
      end
  end.

Definition trimLeftSpace (s : list ascii) : list ascii :=
  trim_left space_encodings (length s) s.

Definition trimRightSpace (s : list ascii) : list ascii :=
  rev (trim_left (map (@rev ascii) space_encodings) (length s) (rev s)).

Definition TrimSpace (s : string) : string :=
  string_of_list_ascii (trimRightSpace (trimLeftSpace (list_ascii_of_string s))).

(** ** strconv.ParseInt *)

Definition lower (c : ascii) : N := N.lor (code c) 32.   (* c | ('x' - 'X') *)

Definition is_digit (c : ascii) : bool := (48 <=? code c)%N && (code c <=? 57)%N.

(** The digit loop of [strconv.ParseUint]: [n] is the value so far,
    [cutoff] the least value whose product with [base] no longer fits in 64
    bits, [maxVal] the largest value of the requested size. *)
Fixpoint parse_digits (base0 : bool) (base cutoff maxVal : Z) (s : string) (n : Z)
  : Z * option goerror :=
  match s with
  | EmptyString => (n, None)
  | String c s' =>
      if Ascii.eqb c "_" && base0 then parse_digits base0 base cutoff maxVal s' n
      else
        let d : option Z :=
          if is_digit c then Some (Z.of_N (code c) - 48)
          else if (97 <=? lower c)%N && (lower c <=? 122)%N
               then Some (Z.of_N (lower c) - 97 + 10)
               else None in
        match d with
        | None => (0, Some ErrSyntax)
        | Some d =>
            if base <=? d then (0, Some ErrSyntax)
            else if cutoff <=? n then (maxVal, Some ErrRange)
            else
              let n1 := n * base + d in
              if (2 ^ 64 <=? n1) || (maxVal <? n1) then (maxVal, Some ErrRange)
              else parse_digits base0 base cutoff maxVal s' n1
        end
  end.

(** [strconv.underscoreOK]: underscores only between digits, or between
    the base prefix and a digit.  [saw] is the kind of the last byte:
    [0] for a digit, [1] for an underscore, [2] for the start, [3] for
    anything else. *)
Fixpoint underscore_scan (hex : bool) (saw : nat) (s : string) : bool :=
  match s with
  | EmptyString => negb (Nat.eqb saw 1)
  | String c s' =>
      if is_digit c || (hex && (97 <=? lower c)%N && (lower c <=? 102)%N)
      then underscore_scan hex 0 s'
      else if Ascii.eqb c "_"
           then if Nat.eqb saw 0 then underscore_scan hex 1 s' else false
           else if Nat.eqb saw 1 then false
                else underscore_scan hex 3 s'
  end.

Definition is_prefix_letter (c : ascii) : bool :=
  N.eqb (lower c) 98 || N.eqb (lower c) 111 || N.eqb (lower c) 120.   (* b o x *)

Definition underscoreOK (s : string) : bool :=
  let s :=
    match s with
    | String c s' => if Ascii.eqb c "-" || Ascii.eqb c "+" then s' else s
    | EmptyString => s
    end in
  match s with
  | String "0" (String c s') =>
      if is_prefix_letter c
      then underscore_scan (N.eqb (lower c) 120) 0 s'
      else underscore_scan false 2 s
  | _ => underscore_scan false 2 s
  end.

Definition has_underscore (s : string) : bool :=
  existsb (Ascii.eqb "_") (list_ascii_of_string s).

(** [strconv.ParseUint(s, 0, bitSize)]: base 0 takes the base from the
    prefix of [s] ("0b", "0o", "0x", a leading "0" for octal, otherwise
    10) and allows underscores as in Go integer literals. *)
Definition ParseUint0 (s : string) (bitSize : Z) : Z * option goerror :=
  match s with
  | EmptyString => (0, Some ErrSyntax)
  | String c0 rest =>
      let '(base, digits) :=
        if Ascii.eqb c0 "0" then
          match rest with
          | String c1 rest' =>
              if (3 <=? String.length s)%nat && N.eqb (lower c1) 98 then (2, rest')
              else if (3 <=? String.length s)%nat && N.eqb (lower c1) 111 then (8, rest')
              else if (3 <=? String.length s)%nat && N.eqb (lower c1) 120 then (16, rest')
              else (8, rest)
          | EmptyString => (8, rest)
          end
        else (10, s) in
      let cutoff := (2 ^ 64 - 1) / base + 1 in
      let maxVal := 2 ^ bitSize - 1 in
      match parse_digits true base cutoff maxVal digits 0 with
      | (n, Some e) => (n, Some e)
      | (n, None) =>
          if has_underscore digits && negb (underscoreOK s)
          then (0, Some ErrSyntax)
          else (n, None)
      end
  end.

(** [strconv.ParseInt(s, 0, bitSize)]. *)
Definition ParseInt0 (s : string) (bitSize : Z) : Z * option goerror :=
  match s with
  | EmptyString => (0, Some ErrSyntax)
  | String c0 rest =>
      let '(neg, s1) :=
        if Ascii.eqb c0 "+" then (false, rest)
        else if Ascii.eqb c0 "-" then (true, rest)
        else (false, s) in
      match ParseUint0 s1 bitSize with
      | (_, Some ErrSyntax) => (0, Some ErrSyntax)
      | (_, Some (errorString e)) => (0, Some (errorString e))
      | (un, _) =>
          let cutoff := 2 ^ (bitSize - 1) in
          if negb neg && (cutoff <=? un) then (cutoff - 1, Some ErrRange)
          else if neg && (cutoff <? un) then (- cutoff, Some ErrRange)
          else ((if neg then - un else un), None)
      end
  end.


(** ** sort.SliceStable

    A stable sort by the strict order [less]: insertion from the right, an
    element going in front of the first element of the sorted rest that
    need not precede it. *)

Fixpoint insert_stable {A : Type} (less : A -> A -> bool) (x : A) (l : list A) : list A :=
  match l with
  | [] => [x]
  | y :: l' => if less y x then y :: insert_stable less x l' else x :: l
  end.

Definition SliceStable {A : Type} (less : A -> A -> bool) (l : list A) : list A :=
  foldr (insert_stable less) [] l.

(** ** Maps from strings to int64 *)

(** [m[k]]: a missing key reads as the zero value. *)
Definition get (m : gmap string Z) (k : string) : Z := default 0 (m !! k).

(** [m[k] += v]. *)
Definition add_to (m : gmap string Z) (k : string) (v : Z) : gmap string Z :=
  <[k := add64 (get m k) v]> m.

(** [keys] is an order in which [for k := range m] may visit the keys of
    [m]: each key once, in any order. *)
Definition map_range (m : gmap string Z) (keys : list string) : Prop :=
  keys ≡ₚ elements (dom m).

(** ** time.Time and time.Parse

    A [Time] is an instant, counted in nanoseconds from January 1 of year
    1, 00:00:00 UTC, the zero value of the Go type.  The program only
    builds times by [time.Parse] without a zone, so they are in UTC and
    carry no monotonic clock reading, and [After] and [Before] compare
    instants. *)

Definition Time : Type := Z.

Definition Time0 : Time := 0.

Definition After (t u : Time) : bool := u <? t.
Definition Before (t u : Time) : bool := t <? u.

Definition digit (c : ascii) : Z := Z.of_N (code c) - 48.

(** [time.getnum]: one or two digits, two when [fixed]. *)
Definition getnum (s : string) (fixed : bool) : option (Z * string) :=
  match s with
  | String c0 s1 =>
      if is_digit c0 then
        match s1 with
        | String c1 s2 =>
            if is_digit c1 then Some (digit c0 * 10 + digit c1, s2)
            else if fixed then None else Some (digit c0, s1)
        | EmptyString => if fixed then None else Some (digit c0, s1)
        end
      else None
  | EmptyString => None
  end.

Fixpoint cutspace (s : string) : string :=
  match s with
  | String " " s' => cutspace s'
  | _ => s
  end.

(** [time.skip]: [value] without [prefix], a run of spaces in [prefix]
    standing for any run of spaces in [value].  [in_run] says the previous
    byte of [prefix] was a space, already matched. *)
Fixpoint skip (value prefix : string) (in_run : bool) : option string :=
  match prefix with
  | EmptyString => Some value
  | String " " prefix' =>
      if in_run then skip value prefix' true
      else match value with
           | String v _ => if Ascii.eqb v " " then skip (cutspace value) prefix' true else None
           | EmptyString => skip value prefix' true
           end
  | String p prefix' =>
      match value with
      | String v value' => if Ascii.eqb v p then skip value' prefix' false else None
      | EmptyString => None
      end
  end.

Fixpoint leading_digits (s : string) : list ascii * string :=
  match s with
  | String c s' =>
      if is_digit c then let '(ds, r) := leading_digits s' in (c :: ds, r)
      else ([], s)
  | EmptyString => ([], s)
  end.

Definition atoi_digits (ds : list ascii) : Z :=
  fold_left (fun n c => n * 10 + digit c) ds 0.

Definition commaOrPeriod (c : ascii) : bool := Ascii.eqb c "." || Ascii.eqb c ",".

(** The chunk [.999] of a layout: an optional fraction of a second with
    any number of digits, of which [time.parseNanoseconds] reads nine. *)
Definition parse_fraction (value : string) : Z * string :=
  match value with
  | String c0 (String c1 _ as ds) =>
      if commaOrPeriod c0 && is_digit c1 then
        let '(digits, rest) := leading_digits ds in
        let digits := firstn 9 digits in
        (atoi_digits digits * 10 ^ (9 - Z.of_nat (length digits)), rest)
      else (0, value)
  | _ => (0, value)
  end.

Definition isLeap (year : Z) : bool :=
  (year mod 4 =? 0) && (negb (year mod 100 =? 0) || (year mod 400 =? 0)).

Definition daysIn (month year : Z) : Z :=
  if month =? 2 then (if isLeap year then 29 else 28)
  else if (month =? 4) || (month =? 6) || (month =? 9) || (month =? 11) then 30
  else 31.

Definition daysBefore (month year : Z) : Z :=
  fold_left (fun acc m => acc + daysIn (Z.of_nat m) year) (seq 1 (Z.to_nat month - 1)) 0.

(** [time.Date(year, month, day, hour, min, sec, nsec, time.UTC)] for
    fields in their ranges. *)
Definition Date (year month day hour min sec nsec : Z) : Time :=
  let y := year - 1 in
  let days := 365 * y + y / 4 - y / 100 + y / 400 + daysBefore month year + (day - 1) in
  (days * 86400 + hour * 3600 + min * 60 + sec) * 1000000000 + nsec.

(** [time.Parse(layout, value)] for the program's layout
    ["2006-01-02 15:04:05.999"], whose chunks are: the year in four
    digits, "-", the month in two, "-", the day in two, " ", the hour in
    one or two, ":", the minute in two, ":", the second in two, and an
    optional fraction.  [None] stands for the [*time.ParseError]. *)
Definition Parse_layout (value : string) : option Time :=
  match value with
  | String y0 (String y1 (String y2 (String y3 value))) =>
      if is_digit y0 && is_digit y1 && is_digit y2 && is_digit y3 then
        let year := atoi_digits [y0; y1; y2; y3] in
        value ← skip value "-" false;
        '(month, value) ← getnum value true;
        if (month <=? 0) || (12 <? month) then None else
        value ← skip value "-" false;
        '(day, value) ← getnum value true;
        value ← skip value " " false;
        '(hour, value) ← getnum value false;
        if 24 <=? hour then None else
        value ← skip value ":" false;
        '(min, value) ← getnum value true;
        if 60 <=? min then None else
        value ← skip value ":" false;
        '(sec, value) ← getnum value true;
        if 60 <=? sec then None else
        let '(nsec, value) := parse_fraction value in
        if negb (String.eqb value "") then None else
        if (day <? 1) || (daysIn month year <? day) then None else
        Some (Date year month day hour min sec nsec)
      else None
  | _ => None
  end.

(** ** strconv.Itoa and strconv.FormatInt in base 10 *)

Definition Itoa (i : Z) : string := pretty i.
Definition FormatInt (i : Z) : string := pretty i.

End Go.

Import Go.

(* ===================================================================== *)
(** * main.go *)
(* ===================================================================== *)

Record LogMessage : Type := mkLogMessage {
  timestamp : string;
  severity : string;
  module : string;
  function : string;
  lineNumber : Z;
  message : string
}.

(** The zero value of the struct. *)
Definition LogMessage0 : LogMessage := mkLogMessage "" "" "" "" 0 "".

Definition parseLogMessage (logRow : string) : LogMessage * option goerror :=
  let logMessage := LogMessage0 in
  let leftParts := Split logRow "|" in
  match leftParts with
  | [p0; p1; p2] =>
      let ts := TrimSpace p0 in
      let sev := TrimSpace p1 in
      let logMessage := mkLogMessage ts sev "" "" 0 "" in
      if String.eqb sev "" then (logMessage, Some (errorString "Malformed message"))
      else
        match Split p2 ":" with
        | r0 :: r1 :: r2 :: _ =>
            let logMessage := mkLogMessage ts sev (TrimSpace r0) (TrimSpace r1) 0 "" in
            match Split r2 "-" with
            | lineNumRaw :: msg :: _ =>
                let '(lineNum, err) := ParseInt0 (TrimSpace lineNumRaw) 16 in
                let logMessage :=
                  mkLogMessage ts sev (TrimSpace r0) (TrimSpace r1) lineNum (TrimSpace msg) in
                (logMessage, err)
            | _ => (logMessage, Some (errorString "Malformed message"))
            end
        | _ => (logMessage, Some (errorString "Malformed message"))
        end
  | _ => (logMessage, Some (errorString "Empty Message"))
  end.


(** [os.ReadFile]: the content of the file at a path, or [None] for an
    error. *)
Definition FileSystem : Type := string -> option string.

Definition parseLogFile (fs : FileSystem) (logPath : string) : list LogMessage :=
  match fs logPath with
  | None => []
  | Some data =>
      let logRows := Split data "010" in
      foldl (fun logMessages logRow =>
               match parseLogMessage logRow with
               | (logMessage, None) => logMessages ++ [logMessage]
               | (_, Some _) => logMessages
               end) [] logRows
  end.

Definition getNumEntries (logMessages : list LogMessage) : Z :=
  Z.of_nat (length logMessages).

Record LogSeverityFrequency : Type := mkLogSeverityFrequency {
  debug : Z;
  info : Z;
  warning : Z;
  error : Z
}.

Definition getLogSeverityFrequency (logMessages : list LogMessage) : LogSeverityFrequency :=
  foldl (fun f logMessage =>
           if String.eqb (severity logMessage) "DEBUG"
           then mkLogSeverityFrequency (add64 (debug f) 1) (info f) (warning f) (error f)
           else if String.eqb (severity logMessage) "INFO"
           then mkLogSeverityFrequency (debug f) (add64 (info f) 1) (warning f) (error f)
           else if String.eqb (severity logMessage) "WARNING"
           then mkLogSeverityFrequency (debug f) (info f) (add64 (warning f) 1) (error f)
           else if String.eqb (severity logMessage) "ERROR"
           then mkLogSeverityFrequency (debug f) (info f) (warning f) (add64 (error f) 1)
           else f)
        (mkLogSeverityFrequency 0 0 0 0) logMessages.

(** The tally of the first loop of [getTopFiveLogMessages]. *)
Definition countMessages (logMessages : list LogMessage) : gmap string Z :=
  foldl (fun rankedLogMessages logMessage => add_to rankedLogMessages (message logMessage) 1)
        ∅ logMessages.

(** The comparison handed to [sort.SliceStable]. *)
Definition moreFrequent (rankedLogMessages : gmap string Z) (a b : string) : bool :=
  get rankedLogMessages b <? get rankedLogMessages a.

(** [keys] is the order in which the runtime ranges over
    [rankedLogMessages]. *)
Definition getTopFiveLogMessages (keys : list string) (logMessages : list LogMessage)
  : list string * list Z :=
  let rankedLogMessages := countMessages logMessages in
  let topFiveLogMessages := replicate 5 "" in
  let topFiveLogMessageFrequencies := replicate 5 0 in
  let messages := SliceStable (moreFrequent rankedLogMessages) keys in
  if (length messages =? 0)%nat then (topFiveLogMessages, topFiveLogMessageFrequencies)
  else
    let maxMessages := if (5 <=? length messages)%nat then 5%nat else length messages in
    foldl (fun '(msgs, freqs) index =>
             match messages !! index with
             | Some m => (<[index := m]> msgs, <[index := get rankedLogMessages m]> freqs)
             | None => (msgs, freqs)
             end)
          (topFiveLogMessages, topFiveLogMessageFrequencies) (seq 0 maxMessages).

Definition getStartTime (logMessages : list LogMessage) : outcome Time :=
  match logMessages with
  | [] => Ok Time0
  | logMessage :: _ =>
      match Parse_layout (timestamp logMessage) with
      | Some startTime => Ok startTime
      | None => Panic "Unable to parse start time"
      end
  end.

Definition getEndTime (logMessages : list LogMessage) : outcome Time :=
  match last logMessages with
  | None => Ok Time0
  | Some logMessage =>
      match Parse_layout (timestamp logMessage) with
      | Some endTime => Ok endTime
      | None => Panic "Unable to parse end time"
      end
  end.

Record LogAnalysis : Type := mkLogAnalysis {
  numEntries : Z;
  logSeverityFrequency : LogSeverityFrequency;
  topFiveLogMessages : list string;
  topFiveLogMessageFrequencies : list Z;
  startTime : Time;
  endTime : Time
}.

(** The value [analyzeLogFile] sends on its channel, or the panic that
    ends the goroutine (and with it the program). *)
Definition analyzeLogFile (fs : FileSystem) (keys : list string) (logPath : string)
  : outcome LogAnalysis :=
  let logMessages := parseLogFile fs logPath in
  let '(top, freqs) := getTopFiveLogMessages keys logMessages in
  startTime ← getStartTime logMessages;
  endTime ← getEndTime logMessages;
  Ok (mkLogAnalysis (getNumEntries logMessages) (getLogSeverityFrequency logMessages)
                    top freqs startTime endTime).

(** The tally of the first loop of [analyzeTopFiveLogMessages]. *)
Definition sumSlots (rankedLogMessages : gmap string Z) (logAnalysis : LogAnalysis)
  : outcome (gmap string Z) :=
  let maxMessages :=
    if (5 <=? length (topFiveLogMessages logAnalysis))%nat then 5%nat
    else length (topFiveLogMessages logAnalysis) in
  foldl (fun acc idx =>
           rankedLogMessages ← acc;
           msg ← index (topFiveLogMessages logAnalysis) idx;
           freq ← index (topFiveLogMessageFrequencies logAnalysis) idx;
           Ok (add_to rankedLogMessages msg freq))
        (Ok rankedLogMessages) (seq 0 maxMessages).

Definition sumAnalyses (logAnalyses : list LogAnalysis) : outcome (gmap string Z) :=
  foldl (fun acc logAnalysis => rankedLogMessages ← acc; sumSlots rankedLogMessages logAnalysis)
        (Ok ∅) logAnalyses.

Definition analyzeTopFiveLogMessages (keys : list string) (logAnalyses : list LogAnalysis)
  : outcome (list string) :=
  rankedLogMessages ← sumAnalyses logAnalyses;
  let messages := SliceStable (moreFrequent rankedLogMessages) keys in
  let maxMessages := if (5 <=? length messages)%nat then 5%nat else length messages in
  Ok (foldl (fun topFive idx =>
               match messages !! idx with
               | Some m => topFive ++ [m]
               | None => topFive
               end) [] (seq 0 maxMessages)).

Definition analyzelogAnalyses (keys : list string) (logAnalyses : list LogAnalysis)
  : outcome LogAnalysis :=
  match logAnalyses with
  | [] => Panic "No analysis found"
  | first :: _ =>
      topFive ← analyzeTopFiveLogMessages keys logAnalyses;
      let maxMessages := if (5 <=? length topFive)%nat then 5%nat else length topFive in
      let finalTop :=
        foldl (fun acc idx =>
                 match topFive !! idx with
                 | Some m => acc ++ [m]
                 | None => acc
                 end) [] (seq 0 maxMessages) in
      Ok (foldl (fun final logAnalysis =>
                   let f := logSeverityFrequency final in
                   let g := logSeverityFrequency logAnalysis in
                   mkLogAnalysis
                     (add64 (numEntries final) (numEntries logAnalysis))
                     (mkLogSeverityFrequency (add64 (debug f) (debug g)) (add64 (info f) (info g))
                        (add64 (warning f) (warning g)) (add64 (error f) (error g)))
                     (topFiveLogMessages final)
                     (topFiveLogMessageFrequencies final)
                     (if After (startTime final) (startTime logAnalysis)
                      then startTime logAnalysis else startTime final)
                     (if Before (endTime final) (endTime logAnalysis)
                      then endTime logAnalysis else endTime final))
                (mkLogAnalysis 0 (mkLogSeverityFrequency 0 0 0 0) finalTop []
                               (startTime first) (endTime first))
                logAnalyses)
  end.

(** The goroutines of [analyzeLogFiles] send their analyses on an
    unbuffered channel, and the loop that receives them appends them in the
    order they arrive: [arrival] lists the indices of the paths in that
    order, [fileKeys] gives each goroutine the order in which it ranges
    over its map, and [keys] the order of the final ranking.  A panic in a
    goroutine ends the program; when several could panic, the one of the
    first such path is reported. *)
Definition goroutines (fs : FileSystem) (fileKeys : list (list string))
    (logPaths : list string) : outcome (list LogAnalysis) :=
  mapM (fun '(logPath, ks) => analyzeLogFile fs ks logPath) (zip logPaths fileKeys).

Definition analyzeLogFiles (fs : FileSystem) (fileKeys : list (list string))
    (arrival : list nat) (keys : list string) (logPaths : list string)
  : outcome LogAnalysis :=
  sent ← goroutines fs fileKeys logPaths;
  let logAnalyses := omap (fun i => sent !! i) arrival in
  analyzelogAnalyses keys logAnalyses.

(** [printLogAnalysis] writes to the standard output, one line for each
    call of [fmt.Println]; the result is the list of those lines.
    [Format] stands for [time.Time.Format] with the layout of the
    program. *)
Section Print.
Variable Format : Time -> string.

Definition printLogAnalysis (logAnalysis : LogAnalysis) : outcome (list string) :=
  let stdout :=
    [ "Number of Entries: " +:+ Itoa (numEntries logAnalysis);
      "Log Severity Frequency: ";
      "   DEBUG: " +:+ FormatInt (debug (logSeverityFrequency logAnalysis));
      "   INFO: " +:+ FormatInt (info (logSeverityFrequency logAnalysis));
      "   WARNING: " +:+ FormatInt (warning (logSeverityFrequency logAnalysis));
      "   ERROR: " +:+ FormatInt (error (logSeverityFrequency logAnalysis));
      "Top Five Log Messages: " ] in
  let maxMessages :=
    if (5 <=? length (topFiveLogMessages logAnalysis))%nat then 5%nat
    else length (topFiveLogMessages logAnalysis) in
  stdout ← foldl (fun acc idx =>
                    stdout ← acc;
                    message ← index (topFiveLogMessages logAnalysis) idx;
                    Ok (stdout ++ ["   " +:+ Itoa (Z.of_nat idx + 1) +:+ ". " +:+ message]))
                 (Ok stdout) (seq 0 maxMessages);
  Ok (stdout ++ [ "Start Date/Time: " +:+ Format (startTime logAnalysis);
                  "End Date/Time: " +:+ Format (endTime logAnalysis) ]).

End Print.

(* ===================================================================== *)
(** * The vocabulary of the claims *)
(* ===================================================================== *)

(** The comparisons of the program: [a] goes before [b] when its key is
    larger; and the lists such a comparison sorts into. *)
Definition by_key {A : Type} (f : A -> Z) (a b : A) : bool := f b <? f a.

Definition descending {A : Type} (f : A -> Z) : list A -> Prop :=
  StronglySorted (fun a b => f b <= f a).

(** A string begins (ends) with white space when its first (last) bytes
    encode a white-space code point. *)
Definition begins_with_space (s : string) : Prop :=
  exists e r, e ∈ space_encodings /\ list_ascii_of_string s = e ++ r.

Definition ends_with_space (s : string) : Prop :=
  exists e r, e ∈ space_encodings /\ list_ascii_of_string s = r ++ e.

Definition trimmed (s : string) : Prop :=
  ~ begins_with_space s /\ ~ ends_with_space s.

(** Records that carry only a message, as the repository's test of
    [getTopFiveLogMessages] builds them. *)
Definition withMessages (msgs : list string) : list LogMessage :=
  map (fun m => mkLogMessage "" "" "" "" 0 m) msgs.

(** [s] has no byte [c]. *)
Fixpoint lacks (c : ascii) (s : string) : Prop :=
  match s with
  | EmptyString => True
  | String a s' => a <> c /\ lacks c s'
  end.

(** The part of [s] before its first byte [c], all of [s] when it has
    none. *)
Fixpoint before (c : ascii) (s : string) : string :=
  match s with
  | EmptyString => EmptyString
  | String a s' => if Ascii.eqb a c then EmptyString else String a (before c s')
  end.

(** A line of the log format, from its six fields; the white space around
    the separators belongs to the fields. *)
Definition logLine (ts sev mdl fn num msg : string) : string :=
  ts +:+ String "|" (sev +:+ String "|"
    (mdl +:+ String ":" (fn +:+ String ":" (num +:+ String "-" msg)))).

(** The value of a string of decimal digits, read after the value [n]. *)
Fixpoint decimal_value (s : string) (n : Z) : Z :=
  match s with
  | EmptyString => n
  | String c s' => decimal_value s' (n * 10 + digit c)
  end.

Fixpoint all_digits (s : string) : Prop :=
  match s with
  | EmptyString => True
  | String c s' => is_digit c = true /\ all_digits s'
  end.

(** A decimal numeral as a program prints it: digits, no sign, no leading
    zero but for "0" itself. *)
Definition decimal_numeral (s : string) : Prop :=
  all_digits s /\
  match s with
  | EmptyString => False
  | String c s' => c <> "0"%char \/ s' = EmptyString
  end.

(** How often the byte [c] stands in [s]. *)
Fixpoint count_byte (c : ascii) (s : string) : nat :=
  match s with
  | EmptyString => O
  | String a s' => if Ascii.eqb a c then S (count_byte c s') else count_byte c s'
  end.

(** How many records have the severity [sev], letter for letter. *)
Definition severityCount (logMessages : list LogMessage) (sev : string) : Z :=
  Z.of_nat (length (filter (fun logMessage => severity logMessage = sev) logMessages)).

(** How often [text] is the message of a record. *)
Definition occurrences (logMessages : list LogMessage) (text : string) : Z :=
  Z.of_nat (length (filter (fun logMessage => message logMessage = text) logMessages)).

(** The rows of a file that [parseLogFile] keeps. *)
Definition goodRow (logRow : string) : option LogMessage :=
  match parseLogMessage logRow with
  | (logMessage, None) => Some logMessage
  | (_, Some _) => None
  end.

(** A file has no record when it cannot be read, is empty, or has only
    lines that [parseLogMessage] rejects. *)
Definition noRecords (fs : FileSystem) (logPath : string) : Prop :=
  fs logPath = None \/
  fs logPath = Some "" \/
  exists data, fs logPath = Some data /\
               Forall (fun logRow => snd (parseLogMessage logRow) <> None) (Split data "010").

(** The summary of a file without records. *)
Definition emptyAnalysis : LogAnalysis :=
  mkLogAnalysis 0 (mkLogSeverityFrequency 0 0 0 0) ["";"";"";"";""] [0;0;0;0;0] Time0 Time0.

(** The (message, frequency) slots of a summary that the reducer reads:
    the first five messages, each with the frequency at its index. *)
Definition slots (logAnalysis : LogAnalysis) : list (string * Z) :=
  take 5 (zip (topFiveLogMessages logAnalysis) (topFiveLogMessageFrequencies logAnalysis)).

Definition allSlots (logAnalyses : list LogAnalysis) : list (string * Z) :=
  logAnalyses ≫= slots.

(** Every message the reducer reads has a frequency at its index. *)
Definition slots_paired (logAnalysis : LogAnalysis) : Prop :=
  (Nat.min 5 (length (topFiveLogMessages logAnalysis))
   <= length (topFiveLogMessageFrequencies logAnalysis))%nat.

Definition total (l : list Z) : Z := foldr Z.add 0 l.

(** The sum, in int64, of the frequencies of the slots that carry [text]. *)
Definition summed (logAnalyses : list LogAnalysis) (text : string) : Z :=
  wrap64 (total (map snd (filter (fun slot => fst slot = text) (allSlots logAnalyses)))).

(** The tally of [analyzeTopFiveLogMessages] as one fold over the slots. *)
Definition tally (m : gmap string Z) (l : list (string * Z)) : gmap string Z :=
  foldl (fun m slot => add_to m (fst slot) (snd slot)) m l.

(** [top] ranks the best five of [candidates] by [score]: no text twice,
    scores descending, and no candidate left out scores higher than one
    taken. *)
Definition ranks_top_five (score : string -> Z) (candidates top : list string) : Prop :=
  NoDup top /\ top ⊆ candidates /\
  length top = Nat.min 5 (length candidates) /\
  descending score top /\
  forall k t, k ∈ candidates -> k ∉ top -> t ∈ top -> score k <= score t.

(** The two comparisons of the last loop of [analyzelogAnalyses]. *)
Definition earlier (t u : Time) : Time := if After t u then u else t.
Definition later (t u : Time) : Time := if Before t u then u else t.

Definition earliest (t : Time) (ts : list Time) : Prop := t ∈ ts /\ Forall (fun u => t <= u) ts.
Definition latest (t : Time) (ts : list Time) : Prop := t ∈ ts /\ Forall (fun u => u <= t) ts.

(** The start times of the summaries that have one: the summary of a file
    without records keeps the zero time. *)
Definition nonEmptyStartTimes (logAnalyses : list LogAnalysis) : list Time :=
  filter (fun t => t <> Time0) (map startTime logAnalyses).

(** A file system with a log of two good lines, a log with no good line,
    an empty file, and no other file. *)
Definition sampleFiles : FileSystem := fun logPath =>
  if String.eqb logPath "app.log" then
    Some ("2024-01-01 00:00:00.000 | INFO | app.module: function: 123 - User logged in"
          +:+ String "010"
          "2024-01-01 00:01:00.000 | ERROR | app.module: function: 124 - Database error")
  else if String.eqb logPath "noise.log" then
    Some ("no bars here" +:+ String "010" "a | b | c" +:+ String "010" "")
  else if String.eqb logPath "empty.log" then Some ""
  else None.

(** The two files of the repository's end-to-end test. *)
Definition scenario : FileSystem := fun logPath =>
  if String.eqb logPath "a.log" then
    Some ("2024-01-01 00:00:00.000 | INFO | app.module: function: 123 - User logged in"
          +:+ String "010"
          "2024-01-01 00:01:00.000 | ERROR | app.module: function: 124 - Database error")
  else if String.eqb logPath "b.log" then
    Some ("2024-01-01 00:02:00.000 | WARNING | app.module: function: 125 - Low memory"
          +:+ String "010"
          "2024-01-01 00:03:00.000 | ERROR | app.module: function: 126 - Database error")
  else None.

(** Two summaries as [analyzeLogFile] builds them, for the examples. *)
Definition summaryA : LogAnalysis :=
  mkLogAnalysis 2 (mkLogSeverityFrequency 0 1 0 1)
    ["User logged in"; "Database error"; ""; ""; ""] [1; 1; 0; 0; 0]
    63839664000000000000 63839664060000000000.

Definition summaryB : LogAnalysis :=
  mkLogAnalysis 2 (mkLogSeverityFrequency 0 0 1 1)
    ["Low memory"; "Database error"; ""; ""; ""] [1; 1; 0; 0; 0]
    63839664120000000000 63839664180000000000.

(** The line that [printLogAnalysis] prints for the message at [index]. *)
Definition messageLine (index : nat) (message : string) : string :=
  "   " +:+ Itoa (Z.of_nat index + 1) +:+ ". " +:+ message.

(** A file system for the examples: the two files of the scenario, the
    two joined by a newline, and the first with a newline at its end. *)
Definition joinedFiles : FileSystem := fun logPath =>
  match scenario "a.log", scenario "b.log" with
  | Some a, Some b =>
      if String.eqb logPath "both.log" then Some (a +:+ String "010" b)
      else if String.eqb logPath "a-newline.log" then Some (a +:+ String "010" "")
      else scenario logPath
  | _, _ => None
  end.

(** A file system with the two files of the scenario and a log whose
    first line has a timestamp that is no date. *)
Definition scenarioWithBadDate : FileSystem := fun logPath =>
  if String.eqb logPath "bad.log"
  then Some "yesterday | INFO | app.module: function: 1 - started"
  else scenario logPath.




(* ===================================================================== *)
(** * Properties of the runtime model *)
(* ===================================================================== *)

Section Wrap.

Lemma wrap64_small z : - 2 ^ 63 <= z < 2 ^ 63 -> wrap64 z = z.
Proof.
  intros H. unfold wrap64. rewrite Z.mod_small; lia.
Qed.

Lemma wrap64_range z : - 2 ^ 63 <= wrap64 z < 2 ^ 63.
Proof.
  unfold wrap64.
  pose proof (Z.mod_pos_bound (z + 2 ^ 63) (2 ^ 64) ltac:(lia)). lia.
Qed.

Lemma wrap64_add_l a b : wrap64 (wrap64 a + b) = wrap64 (a + b).
Proof.
  unfold wrap64. f_equal.
  replace ((a + 2 ^ 63) mod 2 ^ 64 - 2 ^ 63 + b + 2 ^ 63)
    with ((a + 2 ^ 63) mod 2 ^ 64 + b) by lia.
  rewrite Zplus_mod_idemp_l. f_equal. lia.
Qed.

Lemma add64_comm a b : add64 a b = add64 b a.
Proof. unfold add64. f_equal. lia. Qed.

End Wrap.

Section Loops.

Context {A : Type}.

(** The loops [for index := 0; index < n; index++] that append [l[index]]. *)
Lemma append_loop (l : list A) n k acc :
  foldl (fun acc idx => match l !! idx with Some m => acc ++ [m] | None => acc end)
        acc (seq k n)
  = acc ++ take n (drop k l).
Proof.
  revert k acc. induction n as [|n IH]; intros k acc; simpl.
  - now rewrite app_nil_r.
  - rewrite IH. destruct (l !! k) as [m|] eqn:E.
    + rewrite (drop_S _ _ _ E). simpl. now rewrite <- app_assoc.
    + rewrite (drop_ge l k) by (now apply lookup_ge_None).
      rewrite (drop_ge l (S k)) by (apply lookup_ge_None in E; lia).
      now rewrite !take_nil.
Qed.

Lemma top_loop (l : list A) :
  foldl (fun acc idx => match l !! idx with Some m => acc ++ [m] | None => acc end)
        [] (seq 0 (if (5 <=? length l)%nat then 5%nat else length l))
  = take 5 l.
Proof.
  rewrite append_loop, drop_0, app_nil_l.
  destruct (5 <=? length l)%nat eqn:E; [reflexivity|].
  apply Nat.leb_gt in E. rewrite !take_ge; auto; lia.
Qed.

Lemma max5_take (l : list A) :
  take (if (5 <=? length l)%nat then 5%nat else length l) l = take 5 l.
Proof.
  destruct (5 <=? length l)%nat eqn:E; [reflexivity|].
  apply Nat.leb_gt in E. rewrite !take_ge; auto; lia.
Qed.

End Loops.

Section Sorting.

Context {A : Type} (f : A -> Z).

Lemma insert_stable_Permutation x l : insert_stable (by_key f) x l ≡ₚ x :: l.
Proof.
  induction l as [|y l IH]; simpl; [reflexivity|].
  destruct (by_key f y x); [|reflexivity].
  rewrite IH. apply perm_swap.
Qed.

Lemma SliceStable_Permutation l : SliceStable (by_key f) l ≡ₚ l.
Proof.
  induction l as [|x l IH]; simpl; [reflexivity|].
  unfold SliceStable in *. simpl. rewrite insert_stable_Permutation. now rewrite IH.
Qed.

Lemma insert_stable_descending x l :
  descending f l -> descending f (insert_stable (by_key f) x l).
Proof.
  unfold descending. induction 1 as [|y l Hl IH Hy]; simpl.
  - repeat constructor.
  - unfold by_key at 1. destruct (f x <? f y) eqn:E.
    + constructor; [assumption|].
      rewrite insert_stable_Permutation. constructor; [|assumption].
      apply Z.ltb_lt in E. lia.
    + apply Z.ltb_ge in E. constructor; [now constructor|].
      constructor; [assumption|].
      eapply Forall_impl; [exact Hy|]. simpl. intros; lia.
Qed.

Lemma SliceStable_descending l : descending f (SliceStable (by_key f) l).
Proof.
  induction l as [|x l IH]; simpl; [constructor|].
  now apply insert_stable_descending.
Qed.

(** Stability: the elements of one key keep the order they came in. *)
Lemma insert_stable_filter v x l :
  filter (fun a => f a = v) (insert_stable (by_key f) x l)
  = filter (fun a => f a = v) (x :: l).
Proof.
  induction l as [|y l IH]; simpl; [reflexivity|].
  unfold by_key at 1. destruct (f x <? f y) eqn:E; [|reflexivity].
  apply Z.ltb_lt in E.
  rewrite (filter_cons _ y), IH, !filter_cons.
  repeat case_decide; try reflexivity; lia.
Qed.

Lemma SliceStable_stable v l :
  filter (fun a => f a = v) (SliceStable (by_key f) l) = filter (fun a => f a = v) l.
Proof.
  induction l as [|x l IH]; [reflexivity|].
  unfold SliceStable in *. simpl. rewrite insert_stable_filter.
  rewrite !filter_cons, IH. reflexivity.
Qed.

End Sorting.

Section Trim.

Lemma cut_Some p s r : cut p s = Some r <-> s = p ++ r.
Proof.
  revert s. induction p as [|a p IH]; intros s; simpl.
  - split; congruence.
  - destruct s as [|b s]; [split; discriminate|].
    destruct (Ascii.eqb_spec a b) as [->|Hne].
    + rewrite IH. split; congruence.
    + split; [discriminate | congruence].
Qed.

Lemma cut_any_Some encs s r :
  cut_any encs s = Some r -> exists e, e ∈ encs /\ s = e ++ r.
Proof.
  induction encs as [|e encs IH]; simpl; [discriminate|].
  destruct (cut e s) as [r'|] eqn:E.
  - intros [= <-]. exists e. split; [left | now apply cut_Some].
  - intros H. destruct (IH H) as (e' & He' & ->). exists e'. split; [now right | reflexivity].
Qed.

Lemma cut_any_None encs s e r : cut_any encs s = None -> e ∈ encs -> s <> e ++ r.
Proof.
  induction encs as [|e' encs IH]; simpl; intros H He.
  - inversion He.
  - destruct (cut e' s) as [r'|] eqn:E; [discriminate|].
    apply elem_of_cons in He as [->|He]; [|now apply IH].
    intros Hs. apply cut_Some in Hs. congruence.
Qed.

Lemma trim_left_suffix encs n s : exists p, s = p ++ trim_left encs n s.
Proof.
  revert s. induction n as [|n IH]; intros s; simpl; [now exists []|].
  destruct (cut_any encs s) as [r|] eqn:E; [|now exists []].
  destruct (cut_any_Some _ _ _ E) as (e & _ & ->).
  destruct (IH r) as [p Hp]. exists (e ++ p). rewrite <- app_assoc. now f_equal.
Qed.

Lemma trim_left_done encs n s :
  Forall (fun e => e <> []) encs -> (length s <= n)%nat ->
  cut_any encs (trim_left encs n s) = None.
Proof.
  intros Hne. revert s. induction n as [|n IH]; intros s Hlen; simpl.
  - destruct s; [|simpl in Hlen; lia].
    destruct (cut_any encs []) as [r|] eqn:E; [|reflexivity].
    destruct (cut_any_Some _ _ _ E) as (e & He & Hs).
    rewrite Forall_forall in Hne. apply Hne in He.
    symmetry in Hs. apply app_eq_nil in Hs as [? _]. contradiction.
  - destruct (cut_any encs s) as [r|] eqn:E; [|assumption].
    apply IH. destruct (cut_any_Some _ _ _ E) as (e & He & ->).
    rewrite Forall_forall in Hne. apply Hne in He.
    rewrite length_app in Hlen. destruct e; [contradiction|]. simpl in Hlen. lia.
Qed.

Lemma space_encodings_nonempty : Forall (fun e : list ascii => e <> []) space_encodings.
Proof. unfold space_encodings. repeat constructor; discriminate. Qed.

Lemma trimLeftSpace_done s e r : e ∈ space_encodings -> trimLeftSpace s <> e ++ r.
Proof.
  intros He. apply cut_any_None with (encs := space_encodings); [|assumption].
  apply trim_left_done; [apply space_encodings_nonempty | reflexivity].
Qed.

Lemma trimRightSpace_done s e r : e ∈ space_encodings -> trimRightSpace s <> r ++ e.
Proof.
  intros He Hs. unfold trimRightSpace in Hs.
  apply (f_equal (@rev ascii)) in Hs. rewrite rev_involutive, rev_app_distr in Hs.
  revert Hs. apply cut_any_None with (encs := map (@rev ascii) space_encodings).
  - apply trim_left_done; [|now rewrite length_rev].
    apply Forall_forall. intros x Hx. apply list_elem_of_fmap in Hx as (y & -> & Hy).
    pose proof space_encodings_nonempty as Hne. rewrite Forall_forall in Hne.
    apply Hne in Hy. destruct y; [contradiction|]. simpl.
    intros H. apply app_eq_nil in H as [_ H]. discriminate.
  - apply list_elem_of_fmap. now exists e.
Qed.

Lemma trimRightSpace_prefix s : exists q, s = trimRightSpace s ++ q.
Proof.
  unfold trimRightSpace.
  destruct (trim_left_suffix (map (@rev ascii) space_encodings) (length s) (rev s)) as [p Hp].
  exists (rev p). rewrite <- rev_app_distr, <- Hp. now rewrite rev_involutive.
Qed.

End Trim.

(* ===================================================================== *)
(** * The line parser *)
(* ===================================================================== *)

Lemma TrimSpace_trimmed s : trimmed (TrimSpace s).
Proof.
  unfold trimmed, begins_with_space, ends_with_space, TrimSpace.
  rewrite list_ascii_of_string_of_list_ascii.
  split; intros (e & r & He & Hs).
  - destruct (trimRightSpace_prefix (trimLeftSpace (list_ascii_of_string s))) as [q Hq].
    rewrite Hs, <- app_assoc in Hq.
    now apply trimLeftSpace_done in Hq.
  - now apply trimRightSpace_done in Hs.
Qed.

Example TrimSpace_ascii :
  TrimSpace (String "009" "  app.module " +:+ String "010" "") = "app.module".
Proof. reflexivity. Qed.

(** U+00A0 and U+3000 around the text, and a lone byte of an encoding
    left in place. *)
Example TrimSpace_unicode :
  TrimSpace (string_of_list_ascii (map byte [194; 160; 120; 194; 227; 128; 128]%N))
  = string_of_list_ascii (map byte [120; 194]%N).
Proof. reflexivity. Qed.

Example parseLogMessage_valid :
  parseLogMessage "2024-01-02 15:04:05.999 | INFO | app.module: function: 123 - User logged in"
  = (mkLogMessage "2024-01-02 15:04:05.999" "INFO" "app.module" "function" 123 "User logged in",
     None).
Proof. reflexivity. Qed.

Example parseLogMessage_empty :
  parseLogMessage "" = (LogMessage0, Some (errorString "Empty Message")).
Proof. reflexivity. Qed.

Example parseLogMessage_missing_severity :
  snd (parseLogMessage "2024-01-02 15:04:05.999 | | app.module: function: 123 - User logged in")
  = Some (errorString "Malformed message").
Proof. reflexivity. Qed.

Example parseLogMessage_missing_line_number :
  snd (parseLogMessage "2024-01-02 15:04:05.999 | INFO | app.module: function: - User logged in")
  = Some ErrSyntax.
Proof. reflexivity. Qed.

(** What [parseLogMessage] returns without an error. *)
Lemma parseLogMessage_ok logRow logMessage :
  parseLogMessage logRow = (logMessage, None) ->
  exists p0 p1 p2 r0 r1 r2 rs lineNumRaw msg ms,
    Split logRow "|" = [p0; p1; p2] /\
    Split p2 ":" = r0 :: r1 :: r2 :: rs /\
    Split r2 "-" = lineNumRaw :: msg :: ms /\
    TrimSpace p1 <> "" /\
    ParseInt0 (TrimSpace lineNumRaw) 16 = (lineNumber logMessage, None) /\
    logMessage = mkLogMessage (TrimSpace p0) (TrimSpace p1) (TrimSpace r0) (TrimSpace r1)
                              (lineNumber logMessage) (TrimSpace msg).
Proof.
  unfold parseLogMessage.
  destruct (Split logRow "|") as [|p0 [|p1 [|p2 [|]]]]; try discriminate.
  destruct (String.eqb_spec (TrimSpace p1) "") as [|Hsev]; [discriminate|].
  destruct (Split p2 ":") as [|r0 [|r1 [|r2 rs]]] eqn:E2; try discriminate.
  destruct (Split r2 "-") as [|lineNumRaw [|msg ms]] eqn:E3; try discriminate.
  destruct (ParseInt0 (TrimSpace lineNumRaw) 16) as [lineNum err] eqn:E.
  intros [= <- ->]. simpl.
  exists p0, p1, p2, r0, r1, r2, rs, lineNumRaw, msg, ms.
  repeat split; try reflexivity; assumption.
Qed.

Section Lines.

Lemma lacks_app c a b : lacks c (a +:+ b) <-> lacks c a /\ lacks c b.
Proof.
  induction a as [|x a IH]; simpl; [tauto|]. rewrite IH. tauto.
Qed.

Lemma Split_lacks s sep : lacks sep s -> Split s sep = [s].
Proof.
  induction s as [|a s IH]; simpl; [reflexivity|]. intros [Hne Hs].
  destruct (Ascii.eqb_spec a sep); [contradiction|]. now rewrite (IH Hs).
Qed.

Lemma Split_app s t sep :
  lacks sep s -> Split (s +:+ String sep t) sep = s :: Split t sep.
Proof.
  induction s as [|a s IH]; simpl.
  - intros _. now rewrite Ascii.eqb_refl.
  - intros [Hne Hs]. destruct (Ascii.eqb_spec a sep); [contradiction|].
    now rewrite (IH Hs).
Qed.

Lemma Split_before s sep : exists rest, Split s sep = before sep s :: rest.
Proof.
  induction s as [|a s [rest IH]]; simpl; [now exists []|].
  destruct (Ascii.eqb a sep); [eauto|]. rewrite IH. eauto.
Qed.

Lemma before_lacks c s : lacks c s -> before c s = s.
Proof.
  induction s as [|a s IH]; simpl; [reflexivity|]. intros [Hne Hs].
  destruct (Ascii.eqb_spec a c); [contradiction|]. now rewrite (IH Hs).
Qed.

Lemma before_app c a b : lacks c a -> before c (a +:+ b) = a +:+ before c b.
Proof.
  induction a as [|x a IH]; simpl; [reflexivity|]. intros [Hne Ha].
  destruct (Ascii.eqb_spec x c); [contradiction|]. now rewrite (IH Ha).
Qed.

(** What [parseLogMessage] makes of a line of the format. *)
Lemma parseLogMessage_of_logLine ts sev mdl fn num msg :
  lacks "|" ts -> lacks "|" sev -> lacks "|" mdl -> lacks "|" fn -> lacks "|" num ->
  lacks "|" msg ->
  lacks ":" mdl -> lacks ":" fn -> lacks ":" num -> lacks "-" num ->
  TrimSpace sev <> "" ->
  parseLogMessage (logLine ts sev mdl fn num msg)
  = (mkLogMessage (TrimSpace ts) (TrimSpace sev) (TrimSpace mdl) (TrimSpace fn)
                  (fst (ParseInt0 (TrimSpace num) 16))
                  (TrimSpace (before "-" (before ":" msg))),
     snd (ParseInt0 (TrimSpace num) 16)).
Proof.
  intros Hts Hsev Hmod Hfn Hnum Hmsg Cmod Cfn Cnum Dnum Hne.
  unfold parseLogMessage, logLine.
  rewrite (Split_app ts _ "|" Hts), (Split_app sev _ "|" Hsev).
  rewrite Split_lacks.
  2: { repeat (rewrite lacks_app; simpl).
       repeat split; first [assumption | discriminate]. }
  destruct (String.eqb_spec (TrimSpace sev) "") as [|_]; [contradiction|].
  rewrite (Split_app mdl _ ":" Cmod), (Split_app fn _ ":" Cfn).
  destruct (Split_before (num +:+ String "-" msg) ":") as [rest ->].
  rewrite (before_app ":" num _ Cnum). simpl before.
  rewrite (Split_app num _ "-" Dnum).
  destruct (Split_before (before ":" msg) "-") as [rest' ->].
  destruct (ParseInt0 (TrimSpace num) 16) as [n e]. reflexivity.
Qed.

Lemma parse_digits_decimal s n :
  all_digits s -> 0 <= n -> decimal_value s n <= 65535 ->
  parse_digits true 10 ((2 ^ 64 - 1) / 10 + 1) (2 ^ 16 - 1) s n = (decimal_value s n, None).
Proof.
  revert n. induction s as [|c s IH]; intros n Hd Hn Hv; [reflexivity|].
  destruct Hd as [Hc Hd]. simpl in Hv.
  assert (Hdig : 0 <= digit c <= 9).
  { unfold is_digit in Hc. apply andb_true_iff in Hc as [H1 H2].
    apply N.leb_le in H1, H2. unfold digit. lia. }
  assert (Hmono : forall t m, all_digits t -> 0 <= m -> m <= decimal_value t m).
  { induction t as [|x t IHt]; intros m Ht Hm; simpl; [lia|].
    destruct Ht as [Hx Ht]. unfold is_digit in Hx. apply andb_true_iff in Hx as [H1 H2].
    apply N.leb_le in H1, H2.
    assert (0 <= digit x) by (unfold digit; lia).
    specialize (IHt (m * 10 + digit x) Ht ltac:(lia)). lia. }
  pose proof (Hmono s (n * 10 + digit c) Hd ltac:(lia)) as Hle.
  simpl parse_digits.
  assert (Hu : Ascii.eqb c "_" = false).
  { destruct (Ascii.eqb_spec c "_") as [->|]; [discriminate Hc | reflexivity]. }
  rewrite Hu, Hc. simpl andb. cbv iota. fold (digit c).
  destruct (10 <=? digit c) eqn:E1; [apply Z.leb_le in E1; lia|].
  destruct ((2 ^ 64 - 1) / 10 + 1 <=? n) eqn:E2.
  { apply Z.leb_le in E2. change ((2 ^ 64 - 1) / 10 + 1) with 1844674407370955162 in E2. lia. }
  destruct ((2 ^ 64 <=? n * 10 + digit c) || (2 ^ 16 - 1 <? n * 10 + digit c)) eqn:E3.
  { apply orb_true_iff in E3 as [E3|E3]; [apply Z.leb_le in E3 | apply Z.ltb_lt in E3]; lia. }
  apply IH; [assumption | lia | assumption].
Qed.

Lemma all_digits_no_underscore s : all_digits s -> has_underscore s = false.
Proof.
  unfold has_underscore. induction s as [|c s IH]; [reflexivity|]. intros [Hc Hs].
  cbn [list_ascii_of_string existsb]. rewrite (IH Hs).
  destruct (Ascii.eqb_spec "_" c) as [<-|]; [discriminate Hc | reflexivity].
Qed.

(** A decimal numeral of a value up to 32767 is read as that value. *)
Lemma ParseInt0_decimal s :
  decimal_numeral s -> decimal_value s 0 <= 32767 ->
  ParseInt0 s 16 = (decimal_value s 0, None).
Proof.
  intros [Hd Hlead] Hv. destruct s as [|c s]; [contradiction|].
  pose proof Hd as [Hc Hs].
  assert (Hplus : Ascii.eqb c "+" = false).
  { destruct (Ascii.eqb_spec c "+") as [->|]; [discriminate Hc | reflexivity]. }
  assert (Hminus : Ascii.eqb c "-" = false).
  { destruct (Ascii.eqb_spec c "-") as [->|]; [discriminate Hc | reflexivity]. }
  assert (Hp : ParseUint0 (String c s) 16 = (decimal_value (String c s) 0, None)).
  { unfold ParseUint0. destruct (Ascii.eqb_spec c "0") as [->|Hne].
    - destruct Hlead as [Hlead| ->]; [contradiction|]. reflexivity.
    - rewrite parse_digits_decimal by (try assumption; lia).
      now rewrite (all_digits_no_underscore _ Hd). }
  unfold ParseInt0. rewrite Hplus, Hminus, Hp.
  set (v := decimal_value (String c s) 0) in *.
  simpl negb. cbv iota.
  destruct (2 ^ (16 - 1) <=? v) eqn:E; [apply Z.leb_le in E; simpl in E; lia|].
  reflexivity.
Qed.

(** X5: round trip.  A line whose message has no bar, colon or hyphen,
    and whose line number is a decimal numeral up to 32767 with white
    space around it, gives back every field, trimmed. *)
Lemma parseLogMessage_round_trip ts sev mdl fn num msg :
  lacks "|" ts -> lacks "|" sev -> lacks "|" mdl -> lacks "|" fn -> lacks "|" num ->
  lacks "|" msg ->
  lacks ":" mdl -> lacks ":" fn -> lacks ":" num -> lacks ":" msg ->
  lacks "-" num -> lacks "-" msg ->
  TrimSpace sev <> "" ->
  decimal_numeral (TrimSpace num) -> decimal_value (TrimSpace num) 0 <= 32767 ->
  parseLogMessage (logLine ts sev mdl fn num msg)
  = (mkLogMessage (TrimSpace ts) (TrimSpace sev) (TrimSpace mdl) (TrimSpace fn)
                  (decimal_value (TrimSpace num) 0) (TrimSpace msg),
     None).
Proof.
  intros Hts Hsev Hmod Hfn Hnum Hmsg Cmod Cfn Cnum Cmsg Dnum Dmsg Hne Hdec Hv.
  rewrite parseLogMessage_of_logLine by assumption.
  rewrite (ParseInt0_decimal _ Hdec Hv). simpl fst. simpl snd.
  rewrite (before_lacks ":" msg Cmsg), (before_lacks "-" msg Dmsg). reflexivity.
Qed.

(** The lines that [parseLogMessage] rejects. *)
Lemma parseLogMessage_rejects logRow :
  (length (Split logRow "|") <> 3%nat \/
   (exists p0 p1 p2, Split logRow "|" = [p0; p1; p2] /\
      (TrimSpace p1 = "" \/
       (length (Split p2 ":") < 3)%nat \/
       exists r0 r1 r2 rs, Split p2 ":" = r0 :: r1 :: r2 :: rs /\
         ((length (Split r2 "-") < 2)%nat \/
          snd (ParseInt0 (TrimSpace (before "-" r2)) 16) <> None)))) ->
  snd (parseLogMessage logRow) <> None.
Proof.
  unfold parseLogMessage. intros [Hlen | (p0 & p1 & p2 & -> & H)].
  - destruct (Split logRow "|") as [|p0 [|p1 [|p2 [|]]]]; simpl in *;
      try discriminate; contradiction.
  - destruct (String.eqb_spec (TrimSpace p1) "") as [|Hsev]; [discriminate|].
    destruct H as [H | [H | (r0 & r1 & r2 & rs & -> & H)]]; [contradiction | |].
    + destruct (Split p2 ":") as [|r0 [|r1 [|r2 rs]]]; simpl in *; try discriminate; lia.
    + destruct (Split_before r2 "-") as [rest Hb]. rewrite Hb in *.
      destruct H as [H | H].
      * destruct rest; simpl in *; [discriminate | lia].
      * destruct rest as [|msg ms]; [discriminate|].
        destruct (ParseInt0 (TrimSpace (before "-" r2)) 16) as [n e]. exact H.
Qed.

Example parseLogMessage_rejects_examples :
  map (fun logRow => snd (parseLogMessage logRow))
      [ ""; "2024-01-02 15:04:05.999 | INFO"; "a | b | c | d";
        "2024-01-02 15:04:05.999 |  | app:f:1 - x";
        "2024-01-02 15:04:05.999 | INFO | app:f 1 - x";
        "2024-01-02 15:04:05.999 | INFO | app:f:1 x";
        "2024-01-02 15:04:05.999 | INFO | app:f:one - x";
        "2024-01-02 15:04:05.999 | INFO | app:f:32768 - x";
        "2024-01-02 15:04:05.999 | INFO | app:f:32767 - x" ]
  = [ Some (errorString "Empty Message"); Some (errorString "Empty Message");
      Some (errorString "Empty Message"); Some (errorString "Malformed message");
      Some (errorString "Malformed message"); Some (errorString "Malformed message");
      Some ErrSyntax; Some ErrRange; None ].
Proof. vm_compute. reflexivity. Qed.

End Lines.

(** C10: in every record that [parseLogMessage] returns without an error,
    the module and the function neither begin nor end with white space. *)
Theorem parseLogMessage_module_function_trimmed logRow logMessage :
  parseLogMessage logRow = (logMessage, None) ->
  trimmed (module logMessage) /\ trimmed (function logMessage).
Proof.
  intros H. apply parseLogMessage_ok in H.
  destruct H as (p0 & p1 & p2 & r0 & r1 & r2 & rs & raw & msg & ms & _ & _ & _ & _ & _ & ->).
  simpl. split; apply TrimSpace_trimmed.
Qed.

Lemma parseLogMessage_module_function_trimmed_witness :
  trimmed "app.module" /\ trimmed "function".
Proof.
  apply (parseLogMessage_module_function_trimmed
           "2024-01-02 15:04:05.999 | INFO |  app.module : function : 123 - User logged in"
           (mkLogMessage "2024-01-02 15:04:05.999" "INFO" "app.module" "function" 123
                         "User logged in")).
  reflexivity.
Defined.

(** C3: a message that holds a colon or a second hyphen comes back cut
    short at it, without an error: [strings.Split] cuts at every
    separator and only one piece is kept. *)
Theorem parseLogMessage_cuts_message :
  parseLogMessage
    "2024-01-02 15:04:05.999 | ERROR | app.module:function:123 - Connection failed: timeout"
  = (mkLogMessage "2024-01-02 15:04:05.999" "ERROR" "app.module" "function" 123
                  "Connection failed", None)
  /\
  parseLogMessage
    "2024-01-02 15:04:05.999 | ERROR | app.module:function:123 - Disk re-scan started"
  = (mkLogMessage "2024-01-02 15:04:05.999" "ERROR" "app.module" "function" 123
                  "Disk re", None).
Proof. split; reflexivity. Qed.

(* ===================================================================== *)
(** * The per-file aggregator *)
(* ===================================================================== *)

Lemma map_range_empty keys : map_range ∅ keys -> keys = [].
Proof.
  unfold map_range. rewrite dom_empty_L, elements_empty.
  intros H. now apply Permutation_nil_r in H.
Qed.

Lemma map_range_elements (m : gmap string Z) : map_range m (elements (dom m)).
Proof. unfold map_range. reflexivity. Qed.

Lemma map_range_NoDup m keys : map_range m keys -> NoDup keys.
Proof. unfold map_range. intros H. rewrite H. apply NoDup_elements. Qed.

Lemma map_range_elem_of m keys k : map_range m keys -> k ∈ keys <-> is_Some (m !! k).
Proof. unfold map_range. intros H. rewrite H, elem_of_elements. apply elem_of_dom. Qed.

(** The loop that fills the five slots. *)
Lemma fill_loop (m : gmap string Z) (messages : list string) n k msgs freqs :
  (k + n <= length messages)%nat -> (k + n <= length msgs)%nat ->
  length freqs = length msgs ->
  foldl (fun '(msgs, freqs) index =>
           match messages !! index with
           | Some x => (<[index := x]> msgs, <[index := get m x]> freqs)
           | None => (msgs, freqs)
           end) (msgs, freqs) (seq k n)
  = (take k msgs ++ take n (drop k messages) ++ drop (k + n) msgs,
     take k freqs ++ map (get m) (take n (drop k messages)) ++ drop (k + n) freqs).
Proof.
  revert k msgs freqs. induction n as [|n IH]; intros k msgs freqs H1 H2 H3; simpl.
  - rewrite Nat.add_0_r, !take_drop. reflexivity.
  - destruct (messages !! k) as [x|] eqn:E; [|apply lookup_ge_None in E; lia].
    rewrite IH by (rewrite ?length_insert; lia).
    replace (S k + n)%nat with (k + S n)%nat by lia.
    rewrite (drop_S _ _ _ E). simpl.
    f_equal.
    + rewrite take_S_r with (x := x) by (apply list_lookup_insert_eq; lia).
      rewrite take_insert_ge by lia. rewrite <- app_assoc. simpl.
      rewrite drop_insert_lt by lia. reflexivity.
    + rewrite take_S_r with (x := get m x) by (apply list_lookup_insert_eq; lia).
      rewrite take_insert_ge by lia. rewrite <- app_assoc. simpl.
      rewrite drop_insert_lt by lia. reflexivity.
Qed.

(** [getTopFiveLogMessages] without its loops: the first five of the
    sorted keys with their counts, padded to five slots. *)
Lemma getTopFiveLogMessages_eq keys logMessages :
  let m := countMessages logMessages in
  let top := take 5 (SliceStable (moreFrequent m) keys) in
  getTopFiveLogMessages keys logMessages
  = (top ++ replicate (5 - length top) "", map (get m) top ++ replicate (5 - length top) 0).
Proof.
  intros m top. unfold getTopFiveLogMessages. fold m.
  set (messages := SliceStable (moreFrequent m) keys) in *.
  destruct (length messages =? 0)%nat eqn:E0.
  - apply Nat.eqb_eq in E0. apply nil_length_inv in E0. subst top. rewrite E0. reflexivity.
  - set (n := if (5 <=? length messages)%nat then 5%nat else length messages).
    assert (Hn : n = length top).
    { subst n top. rewrite length_take. destruct (5 <=? length messages)%nat eqn:E.
      - apply Nat.leb_le in E. lia.
      - apply Nat.leb_gt in E. lia. }
    assert (Htop : take n messages = top).
    { subst n top. apply max5_take. }
    rewrite fill_loop.
    + rewrite !take_0, drop_0, Nat.add_0_l, Htop, !app_nil_l, !drop_replicate, Hn.
      reflexivity.
    + subst n. destruct (5 <=? length messages)%nat eqn:E; [apply Nat.leb_le in E|]; simpl; lia.
    + subst n. destruct (5 <=? length messages)%nat eqn:E; [|apply Nat.leb_gt in E]; simpl; lia.
    + reflexivity.
Qed.

Lemma getTopFiveLogMessages_length keys logMessages :
  length (fst (getTopFiveLogMessages keys logMessages)) = 5%nat /\
  length (snd (getTopFiveLogMessages keys logMessages)) = 5%nat.
Proof.
  rewrite getTopFiveLogMessages_eq. simpl.
  rewrite !length_app, length_map, !length_replicate, !length_take. lia.
Qed.

Example getTopFiveLogMessages_test :
  getTopFiveLogMessages
    ["Error 1"; "Error 2"; "Error 3"; "Error 4"; "Error 5"; "Error 6"]
    (withMessages ["Error 1"; "Error 1"; "Error 2"; "Error 3"; "Error 3"; "Error 3";
                   "Error 4"; "Error 5"; "Error 6"])
  = (["Error 3"; "Error 1"; "Error 2"; "Error 4"; "Error 5"], [3; 2; 1; 1; 1]).
Proof. vm_compute. reflexivity. Qed.

Lemma Permutation_check (l k : list string) : bool_decide (l ≡ₚ k) = true -> l ≡ₚ k.
Proof. intros H. now apply bool_decide_eq_true in H. Qed.

(** A key order checked against a map by computation. *)
Lemma map_range_check (m : gmap string Z) keys :
  bool_decide (keys ≡ₚ elements (dom m)) = true -> map_range m keys.
Proof. intros H. now apply bool_decide_eq_true in H. Qed.

(** C1: on the record list of the claim, with the map ranged from
    "Error 6" down to "Error 1" (the language leaves the order open), the
    three messages of count one come out as "Error 6", "Error 5",
    "Error 4": the stable sort keeps the order of the range, not the order
    in which the messages were first seen. *)
Theorem getTopFiveLogMessages_ties_in_range_order :
  let logMessages :=
    withMessages ["Error 3"; "Error 1"; "Error 3"; "Error 2"; "Error 3"; "Error 4";
                  "Error 1"; "Error 5"; "Error 6"] in
  let keys := ["Error 6"; "Error 5"; "Error 4"; "Error 3"; "Error 2"; "Error 1"] in
  map_range (countMessages logMessages) keys /\
  getTopFiveLogMessages keys logMessages
  = (["Error 3"; "Error 1"; "Error 6"; "Error 5"; "Error 4"], [3; 2; 1; 1; 1]).
Proof.
  split.
  - apply map_range_check. vm_compute. reflexivity.
  - vm_compute. reflexivity.
Qed.

Lemma parseLogFile_rows fs logPath data :
  fs logPath = Some data ->
  parseLogFile fs logPath = omap goodRow (Split data "010").
Proof.
  intros H. unfold parseLogFile. rewrite H.
  assert (G : forall rows acc,
    foldl (fun logMessages logRow =>
             match parseLogMessage logRow with
             | (logMessage, None) => logMessages ++ [logMessage]
             | (_, Some _) => logMessages
             end) acc rows = acc ++ omap goodRow rows).
  { induction rows as [|row rows IH]; intros acc; simpl.
    - now rewrite app_nil_r.
    - rewrite IH. unfold goodRow at 2.
      destruct (parseLogMessage row) as [lm [e|]]; [reflexivity|].
      now rewrite <- app_assoc. }
  apply G.
Qed.

Lemma rows_rejected_check (logRows : list string) :
  forallb (fun logRow => bool_decide (is_Some (snd (parseLogMessage logRow)))) logRows = true ->
  Forall (fun logRow => snd (parseLogMessage logRow) <> None) logRows.
Proof.
  intros H. apply Forall_forall. intros row Hrow.
  rewrite forallb_forall in H. specialize (H row ltac:(now apply list_elem_of_In)).
  apply bool_decide_eq_true in H. destruct H as [e He]. congruence.
Qed.

Lemma parseLogFile_noRecords fs logPath : noRecords fs logPath -> parseLogFile fs logPath = [].
Proof.
  intros [H | [H | (data & H & Hrows)]].
  - unfold parseLogFile. now rewrite H.
  - unfold parseLogFile. now rewrite H.
  - rewrite (parseLogFile_rows _ _ _ H).
    induction Hrows as [|row rows Hrow _ IH]; [reflexivity|].
    simpl. unfold goodRow at 1.
    destruct (parseLogMessage row) as [lm [e|]]; [exact IH|].
    now contradiction Hrow.
Qed.

Lemma goroutines_lookup fs fileKeys logPaths sent i logPath ks :
  goroutines fs fileKeys logPaths = Ok sent ->
  logPaths !! i = Some logPath -> fileKeys !! i = Some ks ->
  exists a, sent !! i = Some a /\ analyzeLogFile fs ks logPath = Ok a.
Proof.
  unfold goroutines. revert fileKeys sent i.
  induction logPaths as [|p ps IH]; intros fileKeys sent i Hs Hp Hk.
  { rewrite lookup_nil in Hp. discriminate. }
  destruct fileKeys as [|k kss]; [rewrite lookup_nil in Hk; discriminate|].
  simpl in Hs. destruct (analyzeLogFile fs k p) as [a|msg] eqn:E; [|discriminate].
  simpl in Hs. destruct (mapM _ (zip ps kss)) as [rest|msg] eqn:Erest; [|discriminate].
  simpl in Hs. injection Hs as <-. destruct i as [|i]; simpl in *.
  - injection Hp as <-. injection Hk as <-. eauto.
  - eapply IH; eauto.
Qed.

Lemma goroutines_length fs fileKeys logPaths sent :
  goroutines fs fileKeys logPaths = Ok sent ->
  length fileKeys = length logPaths -> length sent = length logPaths.
Proof.
  unfold goroutines. revert fileKeys sent.
  induction logPaths as [|p ps IH]; intros [|k kss] sent; simpl; try discriminate.
  - now intros [= <-].
  - destruct (analyzeLogFile fs k p) as [a|msg] eqn:E; [|discriminate].
    simpl. destruct (mapM _ (zip ps kss)) as [rest|msg] eqn:Erest; [|discriminate].
    simpl. intros [= <-] [= Hlen]. simpl. f_equal. eapply IH; eauto.
Qed.

(** C6: a file that cannot be read, is empty or has only lines that fail
    to parse is summarised without a panic as [emptyAnalysis]: no entry,
    the four severity counts zero, five slots with the empty message and
    frequency zero, and the zero time as start and end.  In a batch, the
    goroutine of such a path sends this summary like any other: the
    collected list has one analysis per path, this one at the path's
    place. *)
Theorem analyzeLogFile_noRecords fs keys logPath :
  noRecords fs logPath ->
  map_range (countMessages (parseLogFile fs logPath)) keys ->
  analyzeLogFile fs keys logPath = Ok emptyAnalysis /\
  forall fileKeys logPaths sent i,
    length fileKeys = length logPaths ->
    logPaths !! i = Some logPath -> fileKeys !! i = Some keys ->
    goroutines fs fileKeys logPaths = Ok sent ->
    length sent = length logPaths /\ sent !! i = Some emptyAnalysis.
Proof.
  intros Hno Hkeys.
  assert (Hfile : analyzeLogFile fs keys logPath = Ok emptyAnalysis).
  { unfold analyzeLogFile. rewrite (parseLogFile_noRecords _ _ Hno) in *.
    apply map_range_empty in Hkeys. subst keys. reflexivity. }
  split; [exact Hfile|].
  intros fileKeys logPaths sent i Hlen Hp Hk Hsent. split.
  - eapply goroutines_length; eauto.
  - destruct (goroutines_lookup _ _ _ _ _ _ _ Hsent Hp Hk) as (a & Ha & Hfa).
    congruence.
Qed.

Lemma analyzeLogFile_noRecords_witness :
  (analyzeLogFile sampleFiles [] "missing.log" = Ok emptyAnalysis /\
   forall fileKeys logPaths sent i,
     length fileKeys = length logPaths ->
     logPaths !! i = Some "missing.log" -> fileKeys !! i = Some [] ->
     goroutines sampleFiles fileKeys logPaths = Ok sent ->
     length sent = length logPaths /\ sent !! i = Some emptyAnalysis) /\
  analyzeLogFile sampleFiles [] "noise.log" = Ok emptyAnalysis /\
  analyzeLogFile sampleFiles [] "empty.log" = Ok emptyAnalysis.
Proof.
  split; [|split].
  - apply (analyzeLogFile_noRecords sampleFiles [] "missing.log").
    + left. reflexivity.
    + apply map_range_check. vm_compute. reflexivity.
  - apply (analyzeLogFile_noRecords sampleFiles [] "noise.log").
    + right. right. eexists. split; [reflexivity|].
      apply rows_rejected_check. vm_compute. reflexivity.
    + apply map_range_check. vm_compute. reflexivity.
  - apply (analyzeLogFile_noRecords sampleFiles [] "empty.log").
    + right. left. reflexivity.
    + apply map_range_check. vm_compute. reflexivity.
Defined.

Example Parse_layout_examples :
  Parse_layout "2024-01-01 00:00:00.000" = Some 63839664000000000000 /\
  Parse_layout "0001-01-01 00:00:00" = Some Time0 /\
  Parse_layout "2024-02-29 23:59:59.999" = Some 63844847999999000000 /\
  Parse_layout "2024-02-30 00:00:00.000" = None /\
  Parse_layout "01/02/2024 10:00" = None /\
  Parse_layout "" = None.
Proof. repeat split; reflexivity. Qed.

(** C8: for a list with a first record [first] and a last record [final],
    [getStartTime] hands [first]'s timestamp to [time.Parse] with the
    layout and [getEndTime] hands it [final]'s; each returns the parsed
    instant when the parse succeeds and panics exactly when it fails. *)
Theorem getStartTime_getEndTime_fatal logMessages first final :
  head logMessages = Some first -> last logMessages = Some final ->
  (forall t, Parse_layout (timestamp first) = Some t -> getStartTime logMessages = Ok t) /\
  (Parse_layout (timestamp first) = None <->
   getStartTime logMessages = Panic "Unable to parse start time") /\
  (forall t, Parse_layout (timestamp final) = Some t -> getEndTime logMessages = Ok t) /\
  (Parse_layout (timestamp final) = None <->
   getEndTime logMessages = Panic "Unable to parse end time").
Proof.
  intros Hfirst Hfinal. unfold getStartTime, getEndTime. rewrite Hfinal.
  destruct logMessages as [|x rest]; [discriminate|]. injection Hfirst as ->.
  repeat split.
  - intros t ->. reflexivity.
  - intros ->. reflexivity.
  - destruct (Parse_layout (timestamp first)); [discriminate | reflexivity].
  - intros t ->. reflexivity.
  - intros ->. reflexivity.
  - destruct (Parse_layout (timestamp final)); [discriminate | reflexivity].
Qed.

Lemma getStartTime_getEndTime_fatal_witness :
  let good := mkLogMessage "2024-01-01 00:00:00.000" "INFO" "m" "f" 1 "x" in
  let bad := mkLogMessage "yesterday" "INFO" "m" "f" 2 "y" in
  getStartTime [good; bad] = Ok 63839664000000000000 /\
  getEndTime [good; bad] = Panic "Unable to parse end time".
Proof.
  intros good bad.
  destruct (getStartTime_getEndTime_fatal [good; bad] good bad eq_refl eq_refl)
    as (Hs & _ & _ & He).
  split.
  - apply Hs. reflexivity.
  - apply He. reflexivity.
Defined.

(* ===================================================================== *)
(** * The cross-file reducer *)
(* ===================================================================== *)

Section Tally.

Lemma total_app l1 l2 : total (l1 ++ l2) = total l1 + total l2.
Proof. unfold total. induction l1 as [|x l1 IH]; simpl; [reflexivity | rewrite IH; lia]. Qed.

Lemma total_Permutation l1 l2 : l1 ≡ₚ l2 -> total l1 = total l2.
Proof.
  unfold total. induction 1; simpl; try lia.
Qed.

Lemma filter_key_absent (l : list (string * Z)) k :
  k ∉ l.*1 -> filter (fun slot => fst slot = k) l = [].
Proof.
  induction l as [|[a b] l IH]; intros Hin; [reflexivity|].
  rewrite filter_cons. simpl. rewrite decide_False.
  - apply IH. intros H. apply Hin. now right.
  - intros ->. apply Hin. left.
Qed.

Lemma tally_snoc m l k v : tally m (l ++ [(k, v)]) = add_to (tally m l) k v.
Proof. unfold tally. now rewrite foldl_app. Qed.

Lemma tally_lookup l k :
  tally ∅ l !! k
  = if decide (k ∈ l.*1)
    then Some (wrap64 (total (map snd (filter (fun slot => fst slot = k) l))))
    else None.
Proof.
  induction l as [|x l IH] using rev_ind.
  - reflexivity.
  - destruct x as [k' v]. rewrite tally_snoc. unfold add_to, get. rewrite lookup_insert.
    rewrite fmap_app, filter_app, map_app, total_app. simpl.
    rewrite filter_cons, filter_nil. simpl.
    destruct (decide (k' = k)) as [->|Hne].
    + rewrite decide_True by (apply elem_of_app; right; left).
      rewrite IH. f_equal. case_decide as Hin; simpl.
      * unfold add64. rewrite wrap64_add_l. f_equal. lia.
      * unfold add64. f_equal.
        rewrite (filter_key_absent _ _ Hin). simpl. lia.
    + rewrite IH. simpl. rewrite Z.add_0_r.
      apply decide_ext. rewrite elem_of_app, list_elem_of_singleton.
      split; [now left | intros [?|?]; [assumption | congruence]].
Qed.

Lemma tally_get l k :
  get (tally ∅ l) k = wrap64 (total (map snd (filter (fun slot => fst slot = k) l))).
Proof.
  unfold get. rewrite tally_lookup. case_decide as Hin; [reflexivity|]. simpl.
  rewrite (filter_key_absent _ _ Hin). reflexivity.
Qed.

Lemma tally_is_Some l k : is_Some (tally ∅ l !! k) <-> k ∈ l.*1.
Proof.
  rewrite tally_lookup. case_decide; split; intros H'; try assumption; eauto.
  - now destruct H'.
  - contradiction.
Qed.


Lemma tally_app m l1 l2 : tally m (l1 ++ l2) = tally (tally m l1) l2.
Proof. unfold tally. apply foldl_app. Qed.

End Tally.

Section Reducer.

Lemma index_Some {A : Type} (l : list A) i x : l !! i = Some x -> index l i = Ok x.
Proof. unfold index. now intros ->. Qed.

Lemma sumSlots_loop (msgs : list string) (freqs : list Z) n k m :
  (k + n <= length msgs)%nat -> (k + n <= length freqs)%nat ->
  foldl (fun acc idx =>
           rankedLogMessages ← acc;
           msg ← index msgs idx;
           freq ← index freqs idx;
           Ok (add_to rankedLogMessages msg freq))
        (Ok m) (seq k n)
  = Ok (tally m (take n (drop k (zip msgs freqs)))).
Proof.
  revert k m. induction n as [|n IH]; intros k m H1 H2; [reflexivity|].
  destruct (lookup_lt_is_Some_2 msgs k ltac:(lia)) as [x Hx].
  destruct (lookup_lt_is_Some_2 freqs k ltac:(lia)) as [v Hv].
  assert (Hz : zip msgs freqs !! k = Some (x, v)).
  { rewrite lookup_zip_with, Hx. simpl. now rewrite Hv. }
  rewrite (drop_S _ _ _ Hz). simpl.
  rewrite (index_Some _ _ _ Hx), (index_Some _ _ _ Hv). simpl.
  rewrite IH by lia. reflexivity.
Qed.

Lemma sumSlots_paired m logAnalysis :
  slots_paired logAnalysis -> sumSlots m logAnalysis = Ok (tally m (slots logAnalysis)).
Proof.
  unfold slots_paired, sumSlots, slots. intros H.
  set (msgs := topFiveLogMessages logAnalysis) in *.
  set (freqs := topFiveLogMessageFrequencies logAnalysis) in *.
  destruct (5 <=? length msgs)%nat eqn:E.
  - apply Nat.leb_le in E. rewrite sumSlots_loop by lia. now rewrite drop_0.
  - apply Nat.leb_gt in E. rewrite sumSlots_loop by lia. rewrite drop_0.
    rewrite !take_ge; [reflexivity | |]; rewrite length_zip; lia.
Qed.

Lemma sumAnalyses_from m logAnalyses :
  Forall slots_paired logAnalyses ->
  foldl (fun acc logAnalysis => rankedLogMessages ← acc; sumSlots rankedLogMessages logAnalysis)
        (Ok m) logAnalyses
  = Ok (tally m (allSlots logAnalyses)).
Proof.
  intros H. revert m. induction H as [|la las Hla _ IH]; intros m; [reflexivity|].
  simpl. rewrite (sumSlots_paired _ _ Hla). rewrite IH.
  unfold allSlots. simpl. now rewrite tally_app.
Qed.

Lemma sumAnalyses_paired logAnalyses :
  Forall slots_paired logAnalyses ->
  sumAnalyses logAnalyses = Ok (tally ∅ (allSlots logAnalyses)).
Proof. apply sumAnalyses_from. Qed.

Lemma sumAnalyses_get logAnalyses text :
  get (tally ∅ (allSlots logAnalyses)) text = summed logAnalyses text.
Proof. apply tally_get. Qed.

Lemma analyzeTopFiveLogMessages_eq keys logAnalyses :
  Forall slots_paired logAnalyses ->
  analyzeTopFiveLogMessages keys logAnalyses
  = Ok (take 5 (SliceStable (by_key (get (tally ∅ (allSlots logAnalyses)))) keys)).
Proof.
  intros H. unfold analyzeTopFiveLogMessages. rewrite (sumAnalyses_paired _ H).
  unfold mbind, outcome_bind. cbv zeta. rewrite top_loop. reflexivity.
Qed.

Lemma merge_loop (logAnalyses : list LogAnalysis) n d i w e top freqs s t :
  foldl (fun final logAnalysis =>
           let f := logSeverityFrequency final in
           let g := logSeverityFrequency logAnalysis in
           mkLogAnalysis
             (add64 (numEntries final) (numEntries logAnalysis))
             (mkLogSeverityFrequency (add64 (debug f) (debug g)) (add64 (info f) (info g))
                (add64 (warning f) (warning g)) (add64 (error f) (error g)))
             (topFiveLogMessages final)
             (topFiveLogMessageFrequencies final)
             (if After (startTime final) (startTime logAnalysis)
              then startTime logAnalysis else startTime final)
             (if Before (endTime final) (endTime logAnalysis)
              then endTime logAnalysis else endTime final))
        (mkLogAnalysis n (mkLogSeverityFrequency d i w e) top freqs s t) logAnalyses
  = mkLogAnalysis
      (foldl add64 n (map numEntries logAnalyses))
      (mkLogSeverityFrequency
         (foldl add64 d (map (fun a => debug (logSeverityFrequency a)) logAnalyses))
         (foldl add64 i (map (fun a => info (logSeverityFrequency a)) logAnalyses))
         (foldl add64 w (map (fun a => warning (logSeverityFrequency a)) logAnalyses))
         (foldl add64 e (map (fun a => error (logSeverityFrequency a)) logAnalyses)))
      top freqs
      (foldl earlier s (map startTime logAnalyses))
      (foldl later t (map endTime logAnalyses)).
Proof.
  revert n d i w e s t. induction logAnalyses as [|la las IH]; intros; [reflexivity|].
  simpl. rewrite IH. reflexivity.
Qed.

Lemma analyzelogAnalyses_eq keys first rest :
  Forall slots_paired (first :: rest) ->
  let logAnalyses := first :: rest in
  analyzelogAnalyses keys logAnalyses
  = Ok (mkLogAnalysis
          (foldl add64 0 (map numEntries logAnalyses))
          (mkLogSeverityFrequency
             (foldl add64 0 (map (fun a => debug (logSeverityFrequency a)) logAnalyses))
             (foldl add64 0 (map (fun a => info (logSeverityFrequency a)) logAnalyses))
             (foldl add64 0 (map (fun a => warning (logSeverityFrequency a)) logAnalyses))
             (foldl add64 0 (map (fun a => error (logSeverityFrequency a)) logAnalyses)))
          (take 5 (SliceStable (by_key (get (tally ∅ (allSlots logAnalyses)))) keys))
          []
          (foldl earlier (startTime first) (map startTime logAnalyses))
          (foldl later (endTime first) (map endTime logAnalyses))).
Proof.
  intros H logAnalyses. unfold analyzelogAnalyses. fold logAnalyses.
  rewrite (analyzeTopFiveLogMessages_eq _ _ H).
  unfold mbind, outcome_bind. cbv zeta.
  rewrite top_loop, take_take. f_equal. apply merge_loop.
Qed.

Lemma foldl_add64 n l : foldl add64 n l = if l is [] then n else wrap64 (n + total l).
Proof.
  revert n. induction l as [|x l IH]; intros n; [reflexivity|].
  simpl. rewrite IH. destruct l as [|y l].
  - unfold add64, total. simpl. f_equal. lia.
  - unfold add64. rewrite wrap64_add_l. f_equal. unfold total. simpl. lia.
Qed.

Lemma foldl_add64_Permutation n l1 l2 : l1 ≡ₚ l2 -> foldl add64 n l1 = foldl add64 n l2.
Proof.
  intros H. rewrite !foldl_add64. rewrite (total_Permutation _ _ H).
  destruct l1, l2; try reflexivity.
  - now apply Permutation_nil_cons in H.
  - symmetry in H. now apply Permutation_nil_cons in H.
Qed.

Lemma foldl_earlier s l :
  let r := foldl earlier s l in r ∈ s :: l /\ r <= s /\ Forall (fun u => r <= u) l.
Proof.
  revert s. induction l as [|x l IH]; intros s; simpl.
  - split; [left | split; [lia | constructor]].
  - destruct (IH (earlier s x)) as (Hin & Hle & Hall).
    assert (Hs : earlier s x <= s /\ earlier s x <= x /\ (earlier s x = s \/ earlier s x = x)).
    { unfold earlier, After. destruct (x <? s) eqn:E; [apply Z.ltb_lt in E | apply Z.ltb_ge in E]; lia. }
    destruct Hs as (Hs1 & Hs2 & Hs3). repeat split.
    + apply elem_of_cons in Hin as [Hin|Hin].
      * rewrite Hin. destruct Hs3 as [->| ->]; [left | right; left].
      * right. now right.
    + lia.
    + constructor; [lia | assumption].
Qed.

Lemma foldl_later t l :
  let r := foldl later t l in r ∈ t :: l /\ t <= r /\ Forall (fun u => u <= r) l.
Proof.
  revert t. induction l as [|x l IH]; intros t; simpl.
  - split; [left | split; [lia | constructor]].
  - destruct (IH (later t x)) as (Hin & Hle & Hall).
    assert (Hs : t <= later t x /\ x <= later t x /\ (later t x = t \/ later t x = x)).
    { unfold later, Before. destruct (t <? x) eqn:E; [apply Z.ltb_lt in E | apply Z.ltb_ge in E]; lia. }
    destruct Hs as (Hs1 & Hs2 & Hs3). repeat split.
    + apply elem_of_cons in Hin as [Hin|Hin].
      * rewrite Hin. destruct Hs3 as [->| ->]; [left | right; left].
      * right. now right.
    + lia.
    + constructor; [lia | assumption].
Qed.

Lemma earliest_head x l : earliest (foldl earlier x (x :: l)) (x :: l).
Proof.
  destruct (foldl_earlier x (x :: l)) as (Hin & _ & Hall).
  split; [|assumption].
  apply elem_of_cons in Hin as [Hin|Hin]; [rewrite Hin; left | assumption].
Qed.

Lemma latest_head x l : latest (foldl later x (x :: l)) (x :: l).
Proof.
  destruct (foldl_later x (x :: l)) as (Hin & _ & Hall).
  split; [|assumption].
  apply elem_of_cons in Hin as [Hin|Hin]; [rewrite Hin; left | assumption].
Qed.

Lemma earliest_unique t u l1 l2 : l1 ≡ₚ l2 -> earliest t l1 -> earliest u l2 -> t = u.
Proof.
  intros H [Ht1 Ht2] [Hu1 Hu2]. rewrite Forall_forall in Ht2, Hu2.
  rewrite <- H in Hu1. rewrite H in Ht1.
  specialize (Ht2 _ Hu1). specialize (Hu2 _ Ht1). lia.
Qed.

Lemma latest_unique t u l1 l2 : l1 ≡ₚ l2 -> latest t l1 -> latest u l2 -> t = u.
Proof.
  intros H [Ht1 Ht2] [Hu1 Hu2]. rewrite Forall_forall in Ht2, Hu2.
  rewrite <- H in Hu1. rewrite H in Ht1.
  specialize (Ht2 _ Hu1). specialize (Hu2 _ Ht1). lia.
Qed.

End Reducer.

Section Ranking.

Variable score : string -> Z.

Lemma take_five_ranks keys :
  NoDup keys -> ranks_top_five score keys (take 5 (SliceStable (by_key score) keys)).
Proof.
  intros Hnd. set (sorted := SliceStable (by_key score) keys).
  assert (Hperm : sorted ≡ₚ keys) by apply SliceStable_Permutation.
  assert (Hsorted : descending score (take 5 sorted ++ drop 5 sorted)).
  { rewrite take_drop. apply SliceStable_descending. }
  unfold ranks_top_five. repeat split.
  - eapply sublist_NoDup; [|apply sublist_take]. now rewrite Hperm.
  - intros x Hx. rewrite <- Hperm. eapply subseteq_take, Hx.
  - rewrite length_take, (Permutation_length Hperm). lia.
  - eapply StronglySorted_app_1_l, Hsorted.
  - intros k t Hk Hnot Ht.
    eapply (StronglySorted_app_1_elem_of _ _ _ t k Hsorted); [assumption|].
    rewrite <- Hperm, <- (take_drop 5 sorted), elem_of_app in Hk.
    destruct Hk as [Hk|Hk]; [contradiction | assumption].
Qed.

End Ranking.

Section Batch.

Lemma analyzeLogFile_paired fs keys logPath logAnalysis :
  analyzeLogFile fs keys logPath = Ok logAnalysis -> slots_paired logAnalysis.
Proof.
  unfold analyzeLogFile.
  destruct (getTopFiveLogMessages_length keys (parseLogFile fs logPath)) as [H1 H2].
  destruct (getTopFiveLogMessages keys (parseLogFile fs logPath)) as [top freqs].
  simpl in H1, H2.
  destruct (getStartTime (parseLogFile fs logPath)) as [s|]; [|intros H; discriminate H].
  destruct (getEndTime (parseLogFile fs logPath)) as [e|]; [|intros H; discriminate H].
  simpl. intros [= <-]. unfold slots_paired.
  cbn [topFiveLogMessages topFiveLogMessageFrequencies]. lia.
Qed.

Lemma goroutines_paired fs fileKeys logPaths sent :
  goroutines fs fileKeys logPaths = Ok sent -> Forall slots_paired sent.
Proof.
  unfold goroutines. revert fileKeys sent.
  induction logPaths as [|p ps IH]; intros fileKeys sent Hs.
  { injection Hs as <-. constructor. }
  destruct fileKeys as [|k kss]; [injection Hs as <-; constructor|].
  simpl in Hs. destruct (analyzeLogFile fs k p) as [a|msg] eqn:E; [|discriminate].
  simpl in Hs. destruct (mapM _ (zip ps kss)) as [rest|msg] eqn:Erest; [|discriminate].
  simpl in Hs. injection Hs as <-. constructor.
  - eapply analyzeLogFile_paired, E.
  - eapply IH, Erest.
Qed.

Lemma received_paired (sent : list LogAnalysis) (arrival : list nat) :
  Forall slots_paired sent -> Forall slots_paired (omap (fun i => sent !! i) arrival).
Proof.
  intros H. apply Forall_forall. intros a Ha.
  apply list_elem_of_omap in Ha as (i & _ & Hi).
  rewrite Forall_forall in H. apply H. eapply list_elem_of_lookup_2, Hi.
Qed.


End Batch.

(* ===================================================================== *)
(** * The claims about the reducer and the batch *)
(* ===================================================================== *)

(** The orders in which a list can be ranged, one by one. *)
Lemma Permutation_cases {A : Type} (l k : list A) : l ≡ₚ k -> l ∈ permutations k.
Proof. intros H. now apply permutations_Permutation. Qed.

(** [H] says [keys] is an order of a map or a list given in full: one goal
    for each order. *)
Ltac each_order H :=
  unfold map_range in H;
  match type of H with
  | ?l ≡ₚ ?k => let k' := eval vm_compute in k in
                change (l ≡ₚ k') in H
  end;
  apply Permutation_cases in H; cbv in H;
  repeat first [ apply elem_of_cons in H as [-> | H] | now inversion H ].

Lemma summaryAB_paired : Forall slots_paired [summaryA; summaryB].
Proof. repeat constructor; unfold slots_paired; simpl; lia. Qed.

(** C9, as the code has it: [analyzelogAnalyses] panics on the empty
    list, and returns a summary for every other list whose summaries have
    a frequency for each of their first five messages, as those that
    [analyzeLogFile] builds have. *)
Theorem analyzelogAnalyses_fails_only_on_empty keys logAnalyses :
  Forall slots_paired logAnalyses ->
  (logAnalyses = [] -> analyzelogAnalyses keys logAnalyses = Panic "No analysis found") /\
  (logAnalyses <> [] -> exists final, analyzelogAnalyses keys logAnalyses = Ok final).
Proof.
  intros H. split.
  - intros ->. reflexivity.
  - intros Hne. destruct logAnalyses as [|first rest]; [contradiction|].
    rewrite (analyzelogAnalyses_eq keys first rest H). eauto.
Qed.

Lemma analyzelogAnalyses_fails_only_on_empty_witness :
  analyzelogAnalyses [] [] = Panic "No analysis found" /\
  exists final,
    analyzelogAnalyses ["Database error"; "User logged in"; "Low memory"; ""]
                       [summaryA; summaryB] = Ok final.
Proof.
  split.
  - apply (analyzelogAnalyses_fails_only_on_empty [] []); [constructor | reflexivity].
  - apply (analyzelogAnalyses_fails_only_on_empty
             ["Database error"; "User logged in"; "Low memory"; ""] [summaryA; summaryB]).
    + exact summaryAB_paired.
    + discriminate.
Defined.

(** C4, as the code has it: for a list of summaries that is not empty,
    the start time of the result is the earliest of all the start times
    and the end time the latest of all the end times, the zero times of
    summaries without records among them; and they are the same for every
    permutation of the list. *)
Theorem analyzelogAnalyses_time_span keys keys' logAnalyses logAnalyses' :
  logAnalyses <> [] -> Forall slots_paired logAnalyses -> logAnalyses' ≡ₚ logAnalyses ->
  exists final final',
    analyzelogAnalyses keys logAnalyses = Ok final /\
    analyzelogAnalyses keys' logAnalyses' = Ok final' /\
    earliest (startTime final) (map startTime logAnalyses) /\
    latest (endTime final) (map endTime logAnalyses) /\
    startTime final' = startTime final /\ endTime final' = endTime final.
Proof.
  intros Hne H Hperm.
  assert (H' : Forall slots_paired logAnalyses') by now rewrite Hperm.
  destruct logAnalyses as [|a l]; [contradiction|].
  destruct logAnalyses' as [|b l']; [now apply Permutation_nil_cons in Hperm|].
  rewrite (analyzelogAnalyses_eq keys a l H), (analyzelogAnalyses_eq keys' b l' H').
  cbv zeta. do 2 eexists. split; [reflexivity|]. split; [reflexivity|].
  cbn [startTime endTime].
  split; [apply earliest_head|]. split; [apply latest_head|]. split.
  - eapply earliest_unique; [|apply earliest_head..].
    exact (Permutation_map startTime Hperm).
  - eapply latest_unique; [|apply latest_head..].
    exact (Permutation_map endTime Hperm).
Qed.

Lemma analyzelogAnalyses_time_span_witness :
  exists final final',
    analyzelogAnalyses ["Database error"; "User logged in"; "Low memory"; ""]
                       [summaryA; summaryB] = Ok final /\
    analyzelogAnalyses [""; "Low memory"; "User logged in"; "Database error"]
                       [summaryB; summaryA] = Ok final' /\
    earliest (startTime final) (map startTime [summaryA; summaryB]) /\
    latest (endTime final) (map endTime [summaryA; summaryB]) /\
    startTime final' = startTime final /\ endTime final' = endTime final.
Proof.
  apply (analyzelogAnalyses_time_span
           ["Database error"; "User logged in"; "Low memory"; ""]
           [""; "Low memory"; "User logged in"; "Database error"]
           [summaryA; summaryB] [summaryB; summaryA]).
  - discriminate.
  - exact summaryAB_paired.
  - apply perm_swap.
Defined.

(** C4 as stated fails: in a batch of a log with records and an empty
    file, the start time of the result is the zero time of the empty
    file's summary, not the earliest of the start times that are not
    empty. *)
Lemma analyzelogAnalyses_start_of_empty_file :
  let summary :=
    mkLogAnalysis 2 (mkLogSeverityFrequency 0 1 0 1)
      ["User logged in"; "Database error"; ""; ""; ""] [1; 1; 0; 0; 0]
      63839664000000000000 63839664060000000000 in
  let keys := ["Database error"; "User logged in"; ""] in
  map_range (countMessages (parseLogFile sampleFiles "app.log"))
            ["User logged in"; "Database error"] /\
  map_range (countMessages (parseLogFile sampleFiles "empty.log")) [] /\
  goroutines sampleFiles [["User logged in"; "Database error"]; []] ["app.log"; "empty.log"]
  = Ok [summary; emptyAnalysis] /\
  (forall rankedLogMessages,
     sumAnalyses [summary; emptyAnalysis] = Ok rankedLogMessages ->
     map_range rankedLogMessages keys) /\
  analyzelogAnalyses keys [summary; emptyAnalysis]
  = Ok (mkLogAnalysis 2 (mkLogSeverityFrequency 0 1 0 1) keys [] Time0 63839664060000000000) /\
  nonEmptyStartTimes [summary; emptyAnalysis] = [63839664000000000000] /\
  ~ earliest Time0 (nonEmptyStartTimes [summary; emptyAnalysis]).
Proof.
  intros summary keys.
  assert (Hp : Forall slots_paired [summary; emptyAnalysis]).
  { repeat constructor; unfold slots_paired; simpl; lia. }
  split; [apply map_range_check; vm_compute; reflexivity|].
  split; [apply map_range_check; vm_compute; reflexivity|].
  split; [vm_compute; reflexivity|].
  split.
  { intros m Hm. rewrite (sumAnalyses_paired _ Hp) in Hm. injection Hm as <-.
    apply map_range_check. vm_compute. reflexivity. }
  split; [vm_compute; reflexivity|].
  split; [reflexivity|].
  intros [Hin _]. vm_compute in Hin.
  apply elem_of_cons in Hin as [Hin|Hin]; [discriminate Hin | inversion Hin].
Qed.

(** C2, as the code has it: the reducer's map has one key for each text
    found in a slot it reads, the empty text of the placeholder slots
    among them, and holds for each the sum in int64 of the frequencies of
    its slots; for every order in which that map may be ranged, the result
    ranks the best five of its keys by that sum, descending. *)
Theorem analyzeTopFiveLogMessages_ranks logAnalyses :
  Forall slots_paired logAnalyses ->
  exists rankedLogMessages,
    sumAnalyses logAnalyses = Ok rankedLogMessages /\
    (forall text, is_Some (rankedLogMessages !! text) <-> text ∈ (allSlots logAnalyses).*1) /\
    (forall text, get rankedLogMessages text = summed logAnalyses text) /\
    forall keys, map_range rankedLogMessages keys ->
      exists top, analyzeTopFiveLogMessages keys logAnalyses = Ok top /\
                  ranks_top_five (get rankedLogMessages) keys top.
Proof.
  intros H. exists (tally ∅ (allSlots logAnalyses)).
  split; [now apply sumAnalyses_paired|].
  split; [intros text; apply tally_is_Some|].
  split; [intros text; apply sumAnalyses_get|].
  intros keys Hkeys. eexists. split; [now apply analyzeTopFiveLogMessages_eq|].
  apply take_five_ranks. eapply map_range_NoDup, Hkeys.
Qed.

Lemma analyzeTopFiveLogMessages_ranks_witness :
  exists rankedLogMessages,
    sumAnalyses [summaryA; summaryB] = Ok rankedLogMessages /\
    (forall text, is_Some (rankedLogMessages !! text)
                  <-> text ∈ (allSlots [summaryA; summaryB]).*1) /\
    (forall text, get rankedLogMessages text = summed [summaryA; summaryB] text) /\
    forall keys, map_range rankedLogMessages keys ->
      exists top, analyzeTopFiveLogMessages keys [summaryA; summaryB] = Ok top /\
                  ranks_top_five (get rankedLogMessages) keys top.
Proof.
  apply (analyzeTopFiveLogMessages_ranks [summaryA; summaryB]).
  exact summaryAB_paired.
Defined.

Example summed_scenario :
  map (summed [summaryA; summaryB]) ["Database error"; "User logged in"; "Low memory"; ""; "x"]
  = [2; 1; 1; 0; 0].
Proof. vm_compute. reflexivity. Qed.

(** C2 as stated fails: the placeholder slots of the one summary put the
    empty text among the keys, and it is a message of the result for
    either order in which the two keys can be ranged. *)
Lemma analyzeTopFiveLogMessages_keeps_placeholder :
  let summary :=
    mkLogAnalysis 1 (mkLogSeverityFrequency 0 0 0 1)
      ["Database error"; ""; ""; ""; ""] [1; 0; 0; 0; 0]
      63839664060000000000 63839664060000000000 in
  (forall rankedLogMessages keys,
     sumAnalyses [summary] = Ok rankedLogMessages ->
     map_range rankedLogMessages keys <->
     keys = ["Database error"; ""] \/ keys = [""; "Database error"]) /\
  analyzeTopFiveLogMessages ["Database error"; ""] [summary] = Ok ["Database error"; ""] /\
  analyzeTopFiveLogMessages [""; "Database error"] [summary] = Ok ["Database error"; ""].
Proof.
  intros summary.
  assert (Hp : Forall slots_paired [summary]).
  { repeat constructor; unfold slots_paired; simpl; lia. }
  split; [|split; vm_compute; reflexivity].
  intros m keys Hm. rewrite (sumAnalyses_paired _ Hp) in Hm. injection Hm as <-.
  split.
  - intros H. each_order H; auto.
  - intros [-> | ->]; apply map_range_check; vm_compute; reflexivity.
Qed.

(** What holds of [getTopFiveLogMessages] for every order in which its
    map may be ranged: the keys are the messages of the records, each
    counted (in int64) as often as it occurs; the slots hold the best five
    by count, descending, each with its count, and are padded to five with
    the empty message and frequency zero. *)
Lemma countMessages_tally logMessages :
  countMessages logMessages = tally ∅ (map (fun logMessage => (message logMessage, 1)) logMessages).
Proof.
  unfold countMessages, tally. generalize (∅ : gmap string Z).
  induction logMessages as [|x l IH]; intros m; [reflexivity|]. simpl. apply IH.
Qed.

Lemma countMessages_get logMessages text :
  get (countMessages logMessages) text = wrap64 (occurrences logMessages text).
Proof.
  rewrite countMessages_tally, tally_get. f_equal. unfold occurrences.
  induction logMessages as [|x l IH]; [reflexivity|].
  simpl map. rewrite !filter_cons. simpl fst.
  destruct (decide (message x = text)); simpl; [|exact IH].
  unfold total in *. simpl. rewrite IH. lia.
Qed.

Lemma countMessages_keys logMessages keys text :
  map_range (countMessages logMessages) keys ->
  text ∈ keys <-> text ∈ map message logMessages.
Proof.
  intros H. rewrite (map_range_elem_of _ _ text H), countMessages_tally, tally_is_Some.
  rewrite <- list_fmap_compose. reflexivity.
Qed.

Lemma getTopFiveLogMessages_ranks keys logMessages :
  map_range (countMessages logMessages) keys ->
  exists top,
    ranks_top_five (get (countMessages logMessages)) keys top /\
    getTopFiveLogMessages keys logMessages
    = (top ++ replicate (5 - length top) "",
       map (get (countMessages logMessages)) top ++ replicate (5 - length top) 0).
Proof.
  intros H. eexists. split; [|apply getTopFiveLogMessages_eq].
  apply take_five_ranks. eapply map_range_NoDup, H.
Qed.

(** With the map ranged in the order in which the messages were first
    seen, the result is the one the claim and the repository's test
    expect. *)
Example getTopFiveLogMessages_first_seen_order :
  getTopFiveLogMessages
    ["Error 3"; "Error 1"; "Error 2"; "Error 4"; "Error 5"; "Error 6"]
    (withMessages ["Error 3"; "Error 1"; "Error 3"; "Error 2"; "Error 3"; "Error 4";
                   "Error 1"; "Error 5"; "Error 6"])
  = (["Error 3"; "Error 1"; "Error 2"; "Error 4"; "Error 5"], [3; 2; 1; 1; 1]).
Proof. vm_compute. reflexivity. Qed.


Example goroutines_scenario :
  goroutines scenario [["User logged in"; "Database error"]; ["Low memory"; "Database error"]]
             ["a.log"; "b.log"]
  = Ok [summaryA; summaryB].
Proof. vm_compute. reflexivity. Qed.

(** The ranking of the scenario's four keys, by any score with the
    scenario's sums, from any order of the keys. *)
Lemma scenario_ranking (score : string -> Z) keys :
  score "Database error" = 2 -> score "User logged in" = 1 ->
  score "Low memory" = 1 -> score "" = 0 ->
  keys ≡ₚ ["Database error"; "User logged in"; "Low memory"; ""] ->
  let top := take 5 (SliceStable (by_key score) keys) in
  head top = Some "Database error" /\ length top = 4%nat /\ last top = Some "".
Proof.
  intros H1 H2 H3 H4 Hkeys. each_order Hkeys;
    unfold SliceStable, by_key; simpl;
    repeat (rewrite ?H1, ?H2, ?H3, ?H4; simpl); auto.
Qed.

(** C7, as the code has it: in the scenario of the two files, for every
    order in which the maps are ranged and in which the two analyses
    arrive, the result has four entries, the severities info 1, warning 1
    and error 2, and "Database error" as its first message, whose summed
    frequency in the reducer's map is 2.  The result carries no
    frequencies: its frequency list is empty, and its messages are the
    four keys of the map, the empty text last, not padded to five. *)
Theorem analyzeLogFiles_scenario keysA keysB arrival keys :
  map_range (countMessages (parseLogFile scenario "a.log")) keysA ->
  map_range (countMessages (parseLogFile scenario "b.log")) keysB ->
  arrival ≡ₚ [0; 1]%nat ->
  (forall sent rankedLogMessages,
     goroutines scenario [keysA; keysB] ["a.log"; "b.log"] = Ok sent ->
     sumAnalyses (omap (fun i => sent !! i) arrival) = Ok rankedLogMessages ->
     map_range rankedLogMessages keys) ->
  exists sent final,
    goroutines scenario [keysA; keysB] ["a.log"; "b.log"] = Ok sent /\
    analyzeLogFiles scenario [keysA; keysB] arrival keys ["a.log"; "b.log"] = Ok final /\
    numEntries final = 4 /\
    logSeverityFrequency final = mkLogSeverityFrequency 0 1 1 2 /\
    head (topFiveLogMessages final) = Some "Database error" /\
    summed sent "Database error" = 2 /\
    topFiveLogMessageFrequencies final = [] /\
    length (topFiveLogMessages final) = 4%nat /\
    last (topFiveLogMessages final) = Some "".
Proof.
  intros HA HB Harr Hkeys.
  destruct (goroutines scenario [keysA; keysB] ["a.log"; "b.log"]) as [sent|msg] eqn:Hsent.
  2: { each_order HA; each_order HB; vm_compute in Hsent; discriminate Hsent. }
  pose proof (goroutines_paired _ _ _ _ Hsent) as Hp.
  pose proof (received_paired sent arrival Hp) as Hr.
  specialize (Hkeys sent _ eq_refl (sumAnalyses_paired _ Hr)).
  exists sent. unfold analyzeLogFiles. rewrite Hsent.
  unfold mbind, outcome_bind. cbv zeta.
  set (received := omap (fun i => sent !! i) arrival) in *.
  assert (Hscore : summed sent "Database error" = 2 /\
                   get (tally ∅ (allSlots received)) "Database error" = 2 /\
                   get (tally ∅ (allSlots received)) "User logged in" = 1 /\
                   get (tally ∅ (allSlots received)) "Low memory" = 1 /\
                   get (tally ∅ (allSlots received)) "" = 0 /\
                   elements (dom (tally ∅ (allSlots received)))
                   ≡ₚ ["Database error"; "User logged in"; "Low memory"; ""] /\
                   exists first rest, received = first :: rest /\
                     foldl add64 0 (map numEntries received) = 4 /\
                     foldl add64 0 (map (fun a => debug (logSeverityFrequency a)) received) = 0 /\
                     foldl add64 0 (map (fun a => info (logSeverityFrequency a)) received) = 1 /\
                     foldl add64 0 (map (fun a => warning (logSeverityFrequency a)) received) = 1 /\
                     foldl add64 0 (map (fun a => error (logSeverityFrequency a)) received) = 2).
  { subst received. clear Hkeys Hp Hr.
    each_order HA; each_order HB; each_order Harr;
      vm_compute in Hsent; injection Hsent as <-;
      (repeat split; [reflexivity .. | apply Permutation_check; vm_compute; reflexivity |]);
      do 2 eexists; (split; [reflexivity|]); repeat split; reflexivity. }
  destruct Hscore as (Hs & H1 & H2 & H3 & H4 & Hdom & first & rest & Hrec & Hn & Hd & Hi & Hw & He).
  unfold map_range in Hkeys. rewrite Hdom in Hkeys.
  destruct (scenario_ranking _ keys H1 H2 H3 H4 Hkeys) as (Hhead & Hlen & Hlast).
  clearbody received. rewrite Hrec in Hr.
  eexists. split; [reflexivity|]. split.
  { rewrite Hrec. rewrite (analyzelogAnalyses_eq keys first rest Hr). cbv zeta.
    rewrite <- Hrec. reflexivity. }
  cbn [numEntries logSeverityFrequency topFiveLogMessages topFiveLogMessageFrequencies].
  rewrite Hn, Hd, Hi, Hw, He. auto 10.
Qed.

Lemma analyzeLogFiles_scenario_witness :
  exists sent final,
    goroutines scenario [["User logged in"; "Database error"]; ["Low memory"; "Database error"]]
               ["a.log"; "b.log"] = Ok sent /\
    analyzeLogFiles scenario
      [["User logged in"; "Database error"]; ["Low memory"; "Database error"]]
      [1; 0]%nat [""; "Low memory"; "User logged in"; "Database error"] ["a.log"; "b.log"]
    = Ok final /\
    numEntries final = 4 /\
    logSeverityFrequency final = mkLogSeverityFrequency 0 1 1 2 /\
    head (topFiveLogMessages final) = Some "Database error" /\
    summed sent "Database error" = 2 /\
    topFiveLogMessageFrequencies final = [] /\
    length (topFiveLogMessages final) = 4%nat /\
    last (topFiveLogMessages final) = Some "".
Proof.
  apply (analyzeLogFiles_scenario
           ["User logged in"; "Database error"] ["Low memory"; "Database error"]
           [1; 0]%nat [""; "Low memory"; "User logged in"; "Database error"]).
  - apply map_range_check. vm_compute. reflexivity.
  - apply map_range_check. vm_compute. reflexivity.
  - apply perm_swap.
  - intros sent m Hsent Hm. vm_compute in Hsent. injection Hsent as <-.
    rewrite sumAnalyses_paired in Hm.
    + injection Hm as <-. apply map_range_check. vm_compute. reflexivity.
    + repeat constructor; unfold slots_paired; simpl; lia.
Defined.

(** C7 as stated fails: the result of the scenario carries no frequency
    (so no frequency 2 for its first message) and four messages, where a
    summary of a file carries five slots of a message and a frequency. *)
Lemma analyzeLogFiles_scenario_no_frequencies :
  let keysA := ["User logged in"; "Database error"] in
  let keysB := ["Low memory"; "Database error"] in
  let keys := ["Database error"; "User logged in"; "Low memory"; ""] in
  map_range (countMessages (parseLogFile scenario "a.log")) keysA /\
  map_range (countMessages (parseLogFile scenario "b.log")) keysB /\
  (forall rankedLogMessages,
     sumAnalyses [summaryA; summaryB] = Ok rankedLogMessages ->
     map_range rankedLogMessages keys) /\
  analyzeLogFile scenario keysA "a.log" = Ok summaryA /\
  length (topFiveLogMessageFrequencies summaryA) = 5%nat /\
  analyzeLogFiles scenario [keysA; keysB] [0; 1]%nat keys ["a.log"; "b.log"]
  = Ok (mkLogAnalysis 4 (mkLogSeverityFrequency 0 1 1 2) keys []
                      63839664000000000000 63839664180000000000).
Proof.
  intros keysA keysB keys.
  split; [apply map_range_check; vm_compute; reflexivity|].
  split; [apply map_range_check; vm_compute; reflexivity|].
  split.
  { intros m Hm. rewrite (sumAnalyses_paired _ summaryAB_paired) in Hm. injection Hm as <-.
    apply map_range_check. vm_compute. reflexivity. }
  split; [vm_compute; reflexivity|].
  split; [reflexivity|].
  vm_compute. reflexivity.
Qed.

(* ===================================================================== *)
(** * Further properties of the line parser *)
(* ===================================================================== *)

Section Records.

Lemma lacks_elem_of c s : lacks c s <-> c ∉ list_ascii_of_string s.
Proof.
  induction s as [|a s IH]; simpl.
  - split; [intros _ H; inversion H | trivial].
  - rewrite IH, not_elem_of_cons. split; intros [H1 H2]; split; auto.
Qed.

Lemma Split_pieces_lack s sep : Forall (lacks sep) (Split s sep).
Proof.
  induction s as [|a s IH]; simpl; [repeat constructor|].
  destruct (Ascii.eqb_spec a sep) as [->|Hne].
  - constructor; [exact I | assumption].
  - destruct (Split s sep) as [|p ps]; [repeat constructor; assumption|].
    inversion IH; subst. constructor; [split|]; assumption.
Qed.

Lemma Split_pieces_keep_lack c s sep : lacks c s -> Forall (lacks c) (Split s sep).
Proof.
  induction s as [|a s IH]; simpl; [repeat constructor|]. intros [Hne Hs].
  specialize (IH Hs). destruct (Ascii.eqb a sep).
  - constructor; [exact I | assumption].
  - destruct (Split s sep) as [|p ps]; [repeat constructor; assumption|].
    inversion IH; subst. constructor; [split|]; assumption.
Qed.

(** What [TrimSpace] returns is a stretch of bytes of its argument. *)
Lemma TrimSpace_infix s :
  exists p q, list_ascii_of_string s = p ++ list_ascii_of_string (TrimSpace s) ++ q.
Proof.
  unfold TrimSpace. rewrite list_ascii_of_string_of_list_ascii.
  destruct (trim_left_suffix space_encodings (length (list_ascii_of_string s))
                             (list_ascii_of_string s)) as [p Hp].
  fold (trimLeftSpace (list_ascii_of_string s)) in Hp.
  destruct (trimRightSpace_prefix (trimLeftSpace (list_ascii_of_string s))) as [q Hq].
  exists p, q. rewrite <- Hq. exact Hp.
Qed.

Lemma TrimSpace_lacks c s : lacks c s -> lacks c (TrimSpace s).
Proof.
  rewrite !lacks_elem_of. destruct (TrimSpace_infix s) as (p & q & ->).
  rewrite !elem_of_app. tauto.
Qed.

Lemma parse_digits_nonneg base0 base cutoff maxVal s n :
  0 <= n -> 0 <= maxVal -> 0 <= base ->
  0 <= fst (parse_digits base0 base cutoff maxVal s n).
Proof.
  intros Hn Hmax Hbase. revert n Hn. induction s as [|c s IH]; intros n Hn; [exact Hn|].
  cbn [parse_digits].
  destruct (Ascii.eqb c "_" && base0); [now apply IH|].
  set (d := if is_digit c then _ else _).
  assert (Hd : forall v, d = Some v -> 0 <= v).
  { subst d. intros v. destruct (is_digit c) eqn:E.
    - unfold is_digit in E. apply andb_true_iff in E as [E1 _]. apply N.leb_le in E1.
      intros [= <-]. lia.
    - destruct ((97 <=? lower c)%N && (lower c <=? 122)%N) eqn:E'; [|discriminate].
      apply andb_true_iff in E' as [E1 _]. apply N.leb_le in E1. intros [= <-]. lia. }
  destruct d as [v|]; [|simpl; lia].
  specialize (Hd v eq_refl).
  destruct (base <=? v); [simpl; lia|].
  destruct (cutoff <=? n); [simpl; lia|].
  destruct ((2 ^ 64 <=? n * base + v) || (maxVal <? n * base + v)); [simpl; lia|].
  apply IH. nia.
Qed.

Lemma parse_digits_error base0 base cutoff maxVal s n e :
  snd (parse_digits base0 base cutoff maxVal s n) = Some e -> e = ErrSyntax \/ e = ErrRange.
Proof.
  revert n. induction s as [|c s IH]; intros n; [discriminate|].
  cbn [parse_digits].
  destruct (Ascii.eqb c "_" && base0); [apply IH|].
  destruct (if is_digit c then _ else _) as [v|]; [|simpl; intros [= <-]; auto].
  destruct (base <=? v); [simpl; intros [= <-]; auto|].
  destruct (cutoff <=? n); [simpl; intros [= <-]; auto|].
  destruct ((2 ^ 64 <=? n * base + v) || (maxVal <? n * base + v));
    [simpl; intros [= <-]; auto|].
  apply IH.
Qed.

Lemma ParseUint0_spec s :
  0 <= fst (ParseUint0 s 16) /\
  forall e, snd (ParseUint0 s 16) = Some e -> e = ErrSyntax \/ e = ErrRange.
Proof.
  unfold ParseUint0. destruct s as [|c0 rest]; [simpl; split; [lia | intros e [= <-]; auto]|].
  set (choice := if Ascii.eqb c0 "0" then _ else _).
  assert (Hbase : 0 <= fst choice).
  { subst choice. destruct (Ascii.eqb c0 "0"); [|simpl; lia].
    destruct rest as [|c1 rest']; [simpl; lia|].
    repeat (match goal with |- context [if ?b then _ else _] => destruct b end);
      simpl; lia. }
  destruct choice as [base digits]. simpl in Hbase.
  pose proof (parse_digits_nonneg true base ((2 ^ 64 - 1) / base + 1) (2 ^ 16 - 1) digits 0
                ltac:(lia) ltac:(lia) Hbase) as Hn.
  pose proof (parse_digits_error true base ((2 ^ 64 - 1) / base + 1) (2 ^ 16 - 1) digits 0)
    as He.
  destruct (parse_digits true base ((2 ^ 64 - 1) / base + 1) (2 ^ 16 - 1) digits 0)
    as [n [e|]]; simpl in *.
  - split; [assumption | intros e' [= <-]; now apply He].
  - destruct (has_underscore digits && negb (underscoreOK (String c0 rest))); simpl.
    + split; [lia | intros e [= <-]; auto].
    + split; [assumption | discriminate].
Qed.

(** What [strconv.ParseInt(s, 0, 16)] returns lies in the range of an
    int16, with or without an error, and its error is one of syntax or of
    range. *)
Lemma ParseInt0_spec s :
  - 32768 <= fst (ParseInt0 s 16) <= 32767 /\
  forall e, snd (ParseInt0 s 16) = Some e -> e = ErrSyntax \/ e = ErrRange.
Proof.
  unfold ParseInt0. destruct s as [|c0 rest]; [simpl; split; [lia | intros e [= <-]; auto]|].
  set (choice := if Ascii.eqb c0 "+" then _ else _).
  destruct choice as [neg s1].
  destruct (ParseUint0_spec s1) as [Hn He].
  destruct (ParseUint0 s1 16) as [un [e|]]; simpl in Hn, He.
  - destruct (He e eq_refl) as [-> | ->]; [simpl; split; [lia | intros e [= <-]; auto]|].
    change (2 ^ (16 - 1)) with 32768.
    destruct (negb neg && (32768 <=? un)) eqn:E1; [simpl; split; [lia | intros e [= <-]; auto]|].
    destruct (neg && (32768 <? un)) eqn:E2; [simpl; split; [lia | intros e [= <-]; auto]|].
    simpl. split; [|discriminate].
    destruct neg; simpl in *;
      [apply Z.ltb_ge in E2 | apply Z.leb_gt in E1]; lia.
  - change (2 ^ (16 - 1)) with 32768.
    destruct (negb neg && (32768 <=? un)) eqn:E1; [simpl; split; [lia | intros e [= <-]; auto]|].
    destruct (neg && (32768 <? un)) eqn:E2; [simpl; split; [lia | intros e [= <-]; auto]|].
    simpl. split; [|discriminate].
    destruct neg; simpl in *;
      [apply Z.ltb_ge in E2 | apply Z.leb_gt in E1]; lia.
Qed.

Lemma length_Split s sep : length (Split s sep) = S (count_byte sep s).
Proof.
  induction s as [|a s IH]; simpl; [reflexivity|].
  destruct (Ascii.eqb a sep); simpl; [now rewrite IH|].
  destruct (Split s sep); simpl in *; [discriminate | assumption].
Qed.

End Records.

(** X1: every record that [parseLogMessage] returns without an error has
    a severity that is not empty, and neither its timestamp, its severity
    nor its message begins or ends with white space. *)
Theorem parseLogMessage_record_trimmed logRow logMessage :
  parseLogMessage logRow = (logMessage, None) ->
  severity logMessage <> "" /\
  trimmed (timestamp logMessage) /\ trimmed (severity logMessage) /\
  trimmed (message logMessage).
Proof.
  intros H. apply parseLogMessage_ok in H.
  destruct H as (p0 & p1 & p2 & r0 & r1 & r2 & rs & raw & msg & ms & _ & _ & _ & Hsev & _ & ->).
  simpl. repeat split; first [assumption | apply TrimSpace_trimmed].
Qed.

Lemma parseLogMessage_record_trimmed_witness :
  "WARNING" <> "" /\ trimmed "2024-01-01 00:02:00.000" /\ trimmed "WARNING" /\
  trimmed "Low memory".
Proof.
  apply (parseLogMessage_record_trimmed
           "  2024-01-01 00:02:00.000 | WARNING  | app.module: function: 125 -  Low memory  "
           (mkLogMessage "2024-01-01 00:02:00.000" "WARNING" "app.module" "function" 125
                         "Low memory")).
  reflexivity.
Defined.

(** X2: the line number of what [parseLogMessage] returns, with or
    without an error, lies in the range of an int16. *)
Theorem parseLogMessage_lineNumber_range logRow :
  - 32768 <= lineNumber (fst (parseLogMessage logRow)) <= 32767.
Proof.
  unfold parseLogMessage.
  destruct (Split logRow "|") as [|p0 [|p1 [|p2 [|]]]]; simpl; try lia.
  destruct (TrimSpace p1 =? "")%string; simpl; try lia.
  destruct (Split p2 ":") as [|r0 [|r1 [|r2 rs]]]; simpl; try lia.
  destruct (Split r2 "-") as [|lineNumRaw [|msg ms]]; simpl; try lia.
  destruct (ParseInt0_spec (TrimSpace lineNumRaw)) as [H _].
  destruct (ParseInt0 (TrimSpace lineNumRaw) 16) as [n e]. exact H.
Qed.

(** X3: no field of a record that [parseLogMessage] returns without an
    error holds a bar; its module, function and message hold no colon, and
    its message holds no hyphen. *)
Theorem parseLogMessage_record_delimiters logRow logMessage :
  parseLogMessage logRow = (logMessage, None) ->
  (lacks "|" (timestamp logMessage) /\ lacks "|" (severity logMessage) /\
   lacks "|" (module logMessage) /\ lacks "|" (function logMessage) /\
   lacks "|" (message logMessage)) /\
  (lacks ":" (module logMessage) /\ lacks ":" (function logMessage) /\
   lacks ":" (message logMessage)) /\
  lacks "-" (message logMessage).
Proof.
  intros H. apply parseLogMessage_ok in H.
  destruct H as (p0 & p1 & p2 & r0 & r1 & r2 & rs & raw & msg & ms & H1 & H2 & H3 & _ & _ & ->).
  pose proof (Split_pieces_lack logRow "|") as Hbar. rewrite H1 in Hbar.
  apply Forall_cons in Hbar as [Hp0 Hbar]. apply Forall_cons in Hbar as [Hp1 Hbar].
  apply Forall_cons in Hbar as [Hp2 _].
  pose proof (Split_pieces_keep_lack "|" p2 ":" Hp2) as Hbar2. rewrite H2 in Hbar2.
  apply Forall_cons in Hbar2 as [Hr0 Hbar2]. apply Forall_cons in Hbar2 as [Hr1 Hbar2].
  apply Forall_cons in Hbar2 as [Hr2 _].
  pose proof (Split_pieces_lack p2 ":") as Hcol. rewrite H2 in Hcol.
  apply Forall_cons in Hcol as [Cr0 Hcol]. apply Forall_cons in Hcol as [Cr1 Hcol].
  apply Forall_cons in Hcol as [Cr2 _].
  pose proof (Split_pieces_keep_lack "|" r2 "-" Hr2) as Hbar3. rewrite H3 in Hbar3.
  apply Forall_cons in Hbar3 as [_ Hbar3]. apply Forall_cons in Hbar3 as [Hmsg _].
  pose proof (Split_pieces_keep_lack ":" r2 "-" Cr2) as Hcol3. rewrite H3 in Hcol3.
  apply Forall_cons in Hcol3 as [_ Hcol3]. apply Forall_cons in Hcol3 as [Cmsg _].
  pose proof (Split_pieces_lack r2 "-") as Hhy. rewrite H3 in Hhy.
  apply Forall_cons in Hhy as [_ Hhy]. apply Forall_cons in Hhy as [Dmsg _].
  simpl. repeat split; now apply TrimSpace_lacks.
Qed.

Lemma parseLogMessage_record_delimiters_witness :
  (lacks "|" "2024-01-02 15:04:05.999" /\ lacks "|" "ERROR" /\ lacks "|" "app.module" /\
   lacks "|" "function" /\ lacks "|" "Connection failed") /\
  (lacks ":" "app.module" /\ lacks ":" "function" /\ lacks ":" "Connection failed") /\
  lacks "-" "Connection failed".
Proof.
  apply (parseLogMessage_record_delimiters
           "2024-01-02 15:04:05.999 | ERROR | app.module:function:123 - Connection failed: timeout"
           (mkLogMessage "2024-01-02 15:04:05.999" "ERROR" "app.module" "function" 123
                         "Connection failed")).
  reflexivity.
Defined.

(** X4: what [parseLogMessage] makes of a line of the format: the fields
    trimmed, the line number and the error as [strconv.ParseInt] gives
    them, and of the message the part before its first colon and its first
    hyphen. *)
Theorem parseLogMessage_logLine ts sev mdl fn num msg :
  lacks "|" ts -> lacks "|" sev -> lacks "|" mdl -> lacks "|" fn -> lacks "|" num ->
  lacks "|" msg ->
  lacks ":" mdl -> lacks ":" fn -> lacks ":" num -> lacks "-" num ->
  TrimSpace sev <> "" ->
  parseLogMessage (logLine ts sev mdl fn num msg)
  = (mkLogMessage (TrimSpace ts) (TrimSpace sev) (TrimSpace mdl) (TrimSpace fn)
                  (fst (ParseInt0 (TrimSpace num) 16))
                  (TrimSpace (before "-" (before ":" msg))),
     snd (ParseInt0 (TrimSpace num) 16)).
Proof. apply parseLogMessage_of_logLine. Qed.

Lemma parseLogMessage_logLine_witness :
  parseLogMessage
    (logLine "2024-01-02 15:04:05.999 " " ERROR " " app.module" "function" "0x7F " " a-b: c")
  = (mkLogMessage "2024-01-02 15:04:05.999" "ERROR" "app.module" "function"
                  (fst (ParseInt0 (TrimSpace "0x7F ") 16))
                  (TrimSpace (before "-" (before ":" " a-b: c"))),
     snd (ParseInt0 (TrimSpace "0x7F ") 16)) /\
  ParseInt0 (TrimSpace "0x7F ") 16 = (127, None) /\
  TrimSpace (before "-" (before ":" " a-b: c")) = "a".
Proof.
  split; [|split; reflexivity].
  apply (parseLogMessage_logLine
           "2024-01-02 15:04:05.999 " " ERROR " " app.module" "function" "0x7F " " a-b: c");
    first [ simpl; repeat split; discriminate | vm_compute; discriminate ].
Defined.

Lemma parseLogMessage_round_trip_witness :
  parseLogMessage
    (logLine "2024-01-02 15:04:05.999 " " INFO     " " app.module" " function" " 123 "
             " User logged in")
  = (mkLogMessage "2024-01-02 15:04:05.999" "INFO" "app.module" "function" 123
                  "User logged in", None).
Proof.
  apply (parseLogMessage_round_trip
           "2024-01-02 15:04:05.999 " " INFO     " " app.module" " function" " 123 "
           " User logged in");
    first [ simpl; repeat split; discriminate
          | vm_compute; discriminate
          | vm_compute; repeat split; now left ].
Defined.

(** X6: [parseLogMessage] answers with the error "Empty Message" exactly
    for the lines that do not hold two bars; every other error it returns
    is "Malformed message" or an error of [strconv.ParseInt]. *)
Theorem parseLogMessage_empty_message_iff logRow :
  (snd (parseLogMessage logRow) = Some (errorString "Empty Message")
   <-> count_byte "|" logRow <> 2%nat) /\
  forall e, snd (parseLogMessage logRow) = Some e ->
    e = errorString "Empty Message" \/ e = errorString "Malformed message" \/
    e = ErrSyntax \/ e = ErrRange.
Proof.
  pose proof (length_Split logRow "|") as Hlen. unfold parseLogMessage.
  destruct (Split logRow "|") as [|p0 [|p1 [|p2 [|]]]]; simpl in Hlen;
    try (split; [split; [intros _; lia | reflexivity] | intros e [= <-]; auto]).
  assert (Hbars : count_byte "|" logRow = 2%nat) by lia.
  assert (G : forall e,
    snd (if (TrimSpace p1 =? "")%string
         then (mkLogMessage (TrimSpace p0) (TrimSpace p1) "" "" 0 "",
               Some (errorString "Malformed message"))
         else
           match Split p2 ":" with
           | r0 :: r1 :: r2 :: _ =>
               match Split r2 "-" with
               | lineNumRaw :: msg :: _ =>
                   let '(lineNum, err) := ParseInt0 (TrimSpace lineNumRaw) 16 in
                   (mkLogMessage (TrimSpace p0) (TrimSpace p1) (TrimSpace r0) (TrimSpace r1)
                                 lineNum (TrimSpace msg), err)
               | _ => (mkLogMessage (TrimSpace p0) (TrimSpace p1) (TrimSpace r0) (TrimSpace r1)
                                    0 "", Some (errorString "Malformed message"))
               end
           | _ => (mkLogMessage (TrimSpace p0) (TrimSpace p1) "" "" 0 "",
                   Some (errorString "Malformed message"))
           end) = Some e ->
    e = errorString "Malformed message" \/ e = ErrSyntax \/ e = ErrRange).
  { intros e. destruct (TrimSpace p1 =? "")%string; [intros [= <-]; auto|].
    destruct (Split p2 ":") as [|r0 [|r1 [|r2 rs]]]; try (intros [= <-]; auto).
    destruct (Split r2 "-") as [|lineNumRaw [|msg ms]]; try (intros [= <-]; auto).
    destruct (ParseInt0_spec (TrimSpace lineNumRaw)) as [_ He].
    destruct (ParseInt0 (TrimSpace lineNumRaw) 16) as [n err]. simpl in *.
    intros H. destruct (He e H); auto. }
  split.
  - split; [|intros H; contradiction].
    intros H. apply G in H. destruct H as [H | [H | H]]; discriminate H.
  - intros e H. apply G in H. tauto.
Qed.

(* ===================================================================== *)
(** * Further properties of the per-file aggregator *)
(* ===================================================================== *)

Section Files.

Lemma Split_append a b sep :
  Split (a +:+ String sep b) sep = Split a sep ++ Split b sep.
Proof.
  induction a as [|c a IH]; simpl.
  - now rewrite Ascii.eqb_refl.
  - destruct (Ascii.eqb c sep); [now rewrite IH|].
    rewrite IH. pose proof (length_Split a sep) as Hlen.
    destruct (Split a sep) as [|p ps]; [discriminate Hlen | reflexivity].
Qed.

Lemma length_omap_le {A B : Type} (f : A -> option B) (l : list A) :
  (length (omap f l) <= length l)%nat.
Proof.
  induction l as [|x l IH]; [reflexivity|].
  change (omap f (x :: l)) with (match f x with Some y => y :: omap f l | None => omap f l end).
  destruct (f x); simpl; lia.
Qed.

End Files.

(** X7: the records of a file made of the content of one file, a newline
    and the content of another are the records of the first followed by
    the records of the second; and a newline at the end of a file adds no
    record. *)
Theorem parseLogFile_append fs logPath logPath1 logPath2 data1 data2 :
  fs logPath1 = Some data1 -> fs logPath2 = Some data2 ->
  (fs logPath = Some (data1 +:+ String "010" data2) ->
   parseLogFile fs logPath = parseLogFile fs logPath1 ++ parseLogFile fs logPath2) /\
  (fs logPath = Some (data1 +:+ String "010" "") ->
   parseLogFile fs logPath = parseLogFile fs logPath1).
Proof.
  intros H1 H2. split; intros H.
  - rewrite (parseLogFile_rows _ _ _ H), (parseLogFile_rows _ _ _ H1),
      (parseLogFile_rows _ _ _ H2).
    now rewrite Split_append, omap_app.
  - rewrite (parseLogFile_rows _ _ _ H), (parseLogFile_rows _ _ _ H1).
    rewrite Split_append, omap_app. simpl. apply app_nil_r.
Qed.

Lemma parseLogFile_append_witness :
  parseLogFile joinedFiles "both.log"
  = parseLogFile joinedFiles "a.log" ++ parseLogFile joinedFiles "b.log" /\
  parseLogFile joinedFiles "a-newline.log" = parseLogFile joinedFiles "a.log".
Proof.
  split.
  - eapply (parseLogFile_append joinedFiles "both.log" "a.log" "b.log"); reflexivity.
  - eapply (parseLogFile_append joinedFiles "a-newline.log" "a.log" "b.log"); reflexivity.
Defined.

(** X8: a file gives at most one record for each of its lines, the lines
    being one more than its newlines; and a file that cannot be read gives
    none. *)
Theorem parseLogFile_length fs logPath :
  match fs logPath with
  | Some data => (length (parseLogFile fs logPath) <= S (count_byte "010" data))%nat
  | None => parseLogFile fs logPath = []
  end.
Proof.
  destruct (fs logPath) as [data|] eqn:H.
  - rewrite (parseLogFile_rows _ _ _ H), <- length_Split. apply length_omap_le.
  - unfold parseLogFile. now rewrite H.
Qed.

(** The counts of [getLogSeverityFrequency], by severity name. *)
Lemma getLogSeverityFrequency_severityCount logMessages :
  getLogSeverityFrequency logMessages
  = mkLogSeverityFrequency
      (wrap64 (severityCount logMessages "DEBUG")) (wrap64 (severityCount logMessages "INFO"))
      (wrap64 (severityCount logMessages "WARNING"))
      (wrap64 (severityCount logMessages "ERROR")).
Proof.
  induction logMessages as [|x l IH] using rev_ind; [reflexivity|].
  unfold getLogSeverityFrequency in *. rewrite foldl_app, IH. cbn [foldl].
  cbn [debug info warning error].
  assert (Hcount : forall sev,
    severityCount (l ++ [x]) sev
    = severityCount l sev + (if decide (severity x = sev) then 1 else 0)).
  { intros sev. unfold severityCount. rewrite filter_app, length_app, filter_cons, filter_nil.
    destruct (decide (severity x = sev)); simpl; lia. }
  rewrite !Hcount. unfold add64. rewrite !wrap64_add_l.
  destruct (String.eqb_spec (severity x) "DEBUG") as [->|H1].
  { repeat (rewrite decide_True by reflexivity || rewrite decide_False by discriminate).
    now rewrite !Z.add_0_r. }
  destruct (String.eqb_spec (severity x) "INFO") as [->|H2].
  { repeat (rewrite decide_True by reflexivity || rewrite decide_False by discriminate).
    now rewrite !Z.add_0_r. }
  destruct (String.eqb_spec (severity x) "WARNING") as [->|H3].
  { repeat (rewrite decide_True by reflexivity || rewrite decide_False by discriminate).
    now rewrite !Z.add_0_r. }
  destruct (String.eqb_spec (severity x) "ERROR") as [->|H4].
  { repeat (rewrite decide_True by reflexivity || rewrite decide_False by discriminate).
    now rewrite !Z.add_0_r. }
  rewrite !decide_False by assumption. now rewrite !Z.add_0_r.
Qed.

(** X9: each count of [getLogSeverityFrequency] is the number, in int64,
    of the records whose severity is that name letter for letter; records
    of any other severity are counted nowhere.  So the counts do not
    depend on the order of the records. *)
Theorem getLogSeverityFrequency_counts logMessages :
  getLogSeverityFrequency logMessages
  = mkLogSeverityFrequency
      (wrap64 (severityCount logMessages "DEBUG")) (wrap64 (severityCount logMessages "INFO"))
      (wrap64 (severityCount logMessages "WARNING"))
      (wrap64 (severityCount logMessages "ERROR")).
Proof. apply getLogSeverityFrequency_severityCount. Qed.

(** The repository's tests of the aggregator. *)
Example TestGetLogSeverityFrequency :
  getLogSeverityFrequency
    (map (fun sev => mkLogMessage "" sev "" "" 0 "")
         ["DEBUG"; "INFO"; "INFO"; "WARNING"; "ERROR"; "ERROR"; "INVALID"])
  = mkLogSeverityFrequency 1 2 1 2.
Proof. reflexivity. Qed.

Example TestGetStartAndEndTime :
  let testLogs :=
    map (fun ts => mkLogMessage ts "" "" "" 0 "")
        ["2024-01-01 00:00:00.000"; "2024-01-01 12:00:00.000"; "2024-01-02 00:00:00.000"] in
  (getStartTime testLogs, Parse_layout "2024-01-01 00:00:00.000")
  = (Ok 63839664000000000000, Some 63839664000000000000) /\
  (getEndTime testLogs, Parse_layout "2024-01-02 00:00:00.000")
  = (Ok 63839750400000000000, Some 63839750400000000000).
Proof. split; reflexivity. Qed.

Section Determined.

Context {A : Type} (f : A -> Z).

(** Two descending lists of the same elements are the same list when no
    two of the elements have the same key. *)
Lemma descending_unique (l1 l2 : list A) :
  l1 ≡ₚ l2 -> descending f l1 -> descending f l2 ->
  (forall a b, a ∈ l1 -> b ∈ l1 -> f a = f b -> a = b) ->
  l1 = l2.
Proof.
  revert l2. induction l1 as [|x l1 IH]; intros l2 Hperm H1 H2 Hinj.
  - now apply Permutation_nil_l in Hperm.
  - destruct l2 as [|y l2]; [now apply Permutation_nil_r in Hperm|].
    apply StronglySorted_inv in H1 as [H1 Hx], H2 as [H2 Hy].
    rewrite Forall_forall in Hx, Hy.
    assert (Hxy : x = y).
    { assert (Hx2 : x ∈ y :: l2) by (rewrite <- Hperm; left).
      assert (Hy1 : y ∈ x :: l1) by (rewrite Hperm; left).
      apply Hinj; [left | assumption |].
      apply elem_of_cons in Hx2 as [?|Hx2]; [congruence|].
      apply elem_of_cons in Hy1 as [?|Hy1]; [congruence|].
      specialize (Hx _ Hy1). specialize (Hy _ Hx2). simpl in *. lia. }
    subst y. f_equal. apply IH; try assumption.
    + eapply Permutation_cons_inv, Hperm.
    + intros a b Ha Hb. apply Hinj; now right.
Qed.

Lemma SliceStable_unique (l1 l2 : list A) :
  l1 ≡ₚ l2 ->
  (forall a b, a ∈ l1 -> b ∈ l1 -> f a = f b -> a = b) ->
  SliceStable (by_key f) l1 = SliceStable (by_key f) l2.
Proof.
  intros Hperm Hinj. apply descending_unique.
  - now rewrite !SliceStable_Permutation.
  - apply SliceStable_descending.
  - apply SliceStable_descending.
  - intros a b Ha Hb. rewrite SliceStable_Permutation in Ha, Hb. now apply Hinj.
Qed.

End Determined.

(** X10: for every order in which its map may be ranged,
    [getTopFiveLogMessages] returns five messages and five frequencies:
    first the best five of the distinct messages of the records by number
    of occurrences, descending, each with that number (in int64), then the
    empty message with frequency zero up to five slots. *)
Theorem getTopFiveLogMessages_slots keys logMessages :
  map_range (countMessages logMessages) keys ->
  exists top,
    getTopFiveLogMessages keys logMessages
    = (top ++ replicate (5 - length top) "",
       map (fun text => wrap64 (occurrences logMessages text)) top
       ++ replicate (5 - length top) 0) /\
    ranks_top_five (get (countMessages logMessages)) keys top /\
    (forall text, text ∈ keys <-> text ∈ map message logMessages) /\
    (forall text, get (countMessages logMessages) text
                  = wrap64 (occurrences logMessages text)).
Proof.
  intros H. destruct (getTopFiveLogMessages_ranks keys logMessages H) as (top & Hrank & Heq).
  exists top. split; [|split; [assumption|split]].
  - rewrite Heq. do 2 f_equal. apply map_ext. intros text. apply countMessages_get.
  - intros text. now apply countMessages_keys.
  - intros text. apply countMessages_get.
Qed.

Lemma getTopFiveLogMessages_slots_witness :
  let logMessages := withMessages ["b"; "a"; "b"] in
  exists top,
    getTopFiveLogMessages ["a"; "b"] logMessages
    = (top ++ replicate (5 - length top) "",
       map (fun text => wrap64 (occurrences logMessages text)) top
       ++ replicate (5 - length top) 0) /\
    ranks_top_five (get (countMessages logMessages)) ["a"; "b"] top /\
    (forall text, text ∈ ["a"; "b"] <-> text ∈ map message logMessages) /\
    (forall text, get (countMessages logMessages) text
                  = wrap64 (occurrences logMessages text)).
Proof.
  apply (getTopFiveLogMessages_slots ["a"; "b"] (withMessages ["b"; "a"; "b"])).
  apply map_range_check. vm_compute. reflexivity.
Defined.

(** X11: when no two messages of the records occur equally often,
    [getTopFiveLogMessages] returns the same slots for every order in
    which its map may be ranged. *)
Theorem getTopFiveLogMessages_determined keys keys' logMessages :
  map_range (countMessages logMessages) keys ->
  map_range (countMessages logMessages) keys' ->
  (forall a b, a ∈ keys -> b ∈ keys ->
               get (countMessages logMessages) a = get (countMessages logMessages) b -> a = b) ->
  getTopFiveLogMessages keys logMessages = getTopFiveLogMessages keys' logMessages.
Proof.
  intros H H' Hinj. rewrite !getTopFiveLogMessages_eq. cbv zeta.
  change (moreFrequent (countMessages logMessages))
    with (by_key (get (countMessages logMessages))).
  rewrite (SliceStable_unique (get (countMessages logMessages)) keys keys'); [reflexivity| |].
  - unfold map_range in *. now rewrite H, H'.
  - exact Hinj.
Qed.

Lemma getTopFiveLogMessages_determined_witness :
  getTopFiveLogMessages ["a"; "b"] (withMessages ["b"; "a"; "b"])
  = getTopFiveLogMessages ["b"; "a"] (withMessages ["b"; "a"; "b"]).
Proof.
  apply (getTopFiveLogMessages_determined ["a"; "b"] ["b"; "a"] (withMessages ["b"; "a"; "b"])).
  - apply map_range_check. vm_compute. reflexivity.
  - apply map_range_check. vm_compute. reflexivity.
  - intros a b Ha Hb.
    apply elem_of_cons in Ha as [->|Ha]; [|apply list_elem_of_singleton in Ha as ->];
      (apply elem_of_cons in Hb as [->|Hb]; [|apply list_elem_of_singleton in Hb as ->]);
      first [reflexivity | vm_compute; discriminate].
Defined.

(** The fields of a summary that [analyzeLogFile] sends. *)
Lemma analyzeLogFile_fields fs keys logPath logAnalysis :
  analyzeLogFile fs keys logPath = Ok logAnalysis ->
  length (topFiveLogMessages logAnalysis) = 5%nat /\
  length (topFiveLogMessageFrequencies logAnalysis) = 5%nat /\
  numEntries logAnalysis = Z.of_nat (length (parseLogFile fs logPath)) /\
  logSeverityFrequency logAnalysis = getLogSeverityFrequency (parseLogFile fs logPath).
Proof.
  unfold analyzeLogFile.
  destruct (getTopFiveLogMessages_length keys (parseLogFile fs logPath)) as [H1 H2].
  destruct (getTopFiveLogMessages keys (parseLogFile fs logPath)) as [top freqs].
  simpl in H1, H2.
  destruct (getStartTime (parseLogFile fs logPath)) as [s|]; [|intros H; discriminate H].
  destruct (getEndTime (parseLogFile fs logPath)) as [e|]; [|intros H; discriminate H].
  simpl. intros [= <-]. simpl. auto.
Qed.

(** X12: whatever the file and the order in which the map is ranged, a
    summary that [analyzeLogFile] sends has five messages and five
    frequencies; its number of entries is the number of records of the
    file and its severity counts are those of the records. *)
Theorem analyzeLogFile_summary fs keys logPath logAnalysis :
  analyzeLogFile fs keys logPath = Ok logAnalysis ->
  length (topFiveLogMessages logAnalysis) = 5%nat /\
  length (topFiveLogMessageFrequencies logAnalysis) = 5%nat /\
  numEntries logAnalysis = Z.of_nat (length (parseLogFile fs logPath)) /\
  logSeverityFrequency logAnalysis = getLogSeverityFrequency (parseLogFile fs logPath).
Proof. apply analyzeLogFile_fields. Qed.

Lemma analyzeLogFile_summary_witness :
  length (topFiveLogMessages summaryA) = 5%nat /\
  length (topFiveLogMessageFrequencies summaryA) = 5%nat /\
  numEntries summaryA = Z.of_nat (length (parseLogFile scenario "a.log")) /\
  logSeverityFrequency summaryA = getLogSeverityFrequency (parseLogFile scenario "a.log").
Proof.
  apply (analyzeLogFile_summary scenario ["User logged in"; "Database error"] "a.log" summaryA).
  vm_compute. reflexivity.
Defined.

(** X13: [analyzeLogFile] panics exactly when the file has records and
    the timestamp of the first or of the last of them does not parse; the
    timestamps of the records in between are never read. *)
Theorem analyzeLogFile_panics_iff fs keys logPath :
  (exists msg, analyzeLogFile fs keys logPath = Panic msg) <->
  exists first final,
    head (parseLogFile fs logPath) = Some first /\
    last (parseLogFile fs logPath) = Some final /\
    (Parse_layout (timestamp first) = None \/ Parse_layout (timestamp final) = None).
Proof.
  unfold analyzeLogFile.
  destruct (getTopFiveLogMessages keys (parseLogFile fs logPath)) as [top freqs].
  unfold getStartTime, getEndTime.
  destruct (parseLogFile fs logPath) as [|x l] eqn:E.
  { simpl. split; [intros [msg H]; discriminate H | intros (a & b & H & _); discriminate H]. }
  destruct (last (x :: l)) as [final|] eqn:Hlast.
  2: { apply last_None in Hlast. discriminate Hlast. }
  simpl head.
  destruct (Parse_layout (timestamp x)) as [s|] eqn:Hs;
    destruct (Parse_layout (timestamp final)) as [e|] eqn:He; simpl.
  - split; [intros [msg H]; discriminate H|].
    intros (a & b & [= <-] & [= <-] & [H|H]); congruence.
  - split; [|eauto]. intros _. exists x, final. auto.
  - split; [|eauto]. intros _. exists x, final. auto.
  - split; [|eauto]. intros _. exists x, final. auto.
Qed.

(* ===================================================================== *)
(** * Further properties of the reducer and the batch *)
(* ===================================================================== *)

Section Bounds.

Lemma index_None {A : Type} (l : list A) i :
  l !! i = None -> index l i = Panic index_out_of_range.
Proof. unfold index. now intros ->. Qed.

Lemma sumSlots_loop_panic (msgs : list string) (freqs : list Z) msg l :
  foldl (fun acc idx =>
           rankedLogMessages ← acc;
           msg ← index msgs idx;
           freq ← index freqs idx;
           Ok (add_to rankedLogMessages msg freq))
        (Panic msg) l
  = Panic msg.
Proof. induction l as [|i l IH]; [reflexivity | exact IH]. Qed.

Lemma sumSlots_unpaired m logAnalysis :
  ~ slots_paired logAnalysis -> sumSlots m logAnalysis = Panic index_out_of_range.
Proof.
  unfold slots_paired, sumSlots. intros H.
  set (msgs := topFiveLogMessages logAnalysis) in *.
  set (freqs := topFiveLogMessageFrequencies logAnalysis) in *.
  set (n := if (5 <=? length msgs)%nat then 5%nat else length msgs).
  assert (Hn : n = Nat.min 5 (length msgs)).
  { subst n. destruct (5 <=? length msgs)%nat eqn:E;
      [apply Nat.leb_le in E | apply Nat.leb_gt in E]; lia. }
  assert (Hsplit : seq 0 n = seq 0 (length freqs) ++ length freqs :: seq (S (length freqs))
                                 (n - S (length freqs))).
  { replace n with (length freqs + S (n - S (length freqs)))%nat at 1 by lia.
    now rewrite seq_app. }
  rewrite Hsplit, foldl_app, sumSlots_loop by lia. cbn [foldl].
  destruct (lookup_lt_is_Some_2 msgs (length freqs) ltac:(lia)) as [x Hx].
  rewrite (index_Some _ _ _ Hx).
  rewrite (index_None freqs (length freqs)) by (apply lookup_ge_None; lia).
  apply sumSlots_loop_panic.
Qed.

Lemma sumAnalyses_loop_panic msg (logAnalyses : list LogAnalysis) :
  foldl (fun acc logAnalysis => rankedLogMessages ← acc; sumSlots rankedLogMessages logAnalysis)
        (Panic msg) logAnalyses
  = Panic msg.
Proof. induction logAnalyses as [|a l IH]; [reflexivity | exact IH]. Qed.

Lemma slots_paired_dec logAnalysis : {slots_paired logAnalysis} + {~ slots_paired logAnalysis}.
Proof. unfold slots_paired. apply le_dec. Qed.

Lemma sumAnalyses_unpaired logAnalyses :
  ~ Forall slots_paired logAnalyses -> sumAnalyses logAnalyses = Panic index_out_of_range.
Proof.
  unfold sumAnalyses. generalize (∅ : gmap string Z).
  induction logAnalyses as [|a l IH]; intros m H; [now contradiction H|].
  cbn [foldl]. destruct (slots_paired_dec a) as [Ha|Ha].
  - change (Ok m ≫= (fun rankedLogMessages => sumSlots rankedLogMessages a))
      with (sumSlots m a).
    rewrite (sumSlots_paired _ _ Ha). apply IH. intros Hl. apply H. now constructor.
  - change (Ok m ≫= (fun rankedLogMessages => sumSlots rankedLogMessages a))
      with (sumSlots m a).
    rewrite (sumSlots_unpaired _ _ Ha). apply sumAnalyses_loop_panic.
Qed.

Lemma sumAnalyses_Ok_paired logAnalyses m :
  sumAnalyses logAnalyses = Ok m -> Forall slots_paired logAnalyses.
Proof.
  intros H. destruct (Forall_Exists_dec slots_paired (fun a => ~ slots_paired a)
                        slots_paired_dec logAnalyses) as [Hall|Hex]; [assumption|].
  rewrite sumAnalyses_unpaired in H; [discriminate|].
  intros Hall. apply Exists_exists in Hex as (a & Ha & Hna).
  rewrite Forall_forall in Hall. now apply Hna, Hall.
Qed.

End Bounds.

(** X14: for a list of summaries that is not empty, [analyzelogAnalyses]
    returns a summary exactly when every summary has a frequency for each
    of its first five messages; when one has not, the run ends in the
    panic of an index out of range. *)
Theorem analyzelogAnalyses_needs_paired keys logAnalyses :
  logAnalyses <> [] ->
  ((exists final, analyzelogAnalyses keys logAnalyses = Ok final)
   <-> Forall slots_paired logAnalyses) /\
  (~ Forall slots_paired logAnalyses ->
   analyzelogAnalyses keys logAnalyses = Panic index_out_of_range).
Proof.
  intros Hne. destruct logAnalyses as [|first rest]; [contradiction|].
  assert (Hpanic : ~ Forall slots_paired (first :: rest) ->
                   analyzelogAnalyses keys (first :: rest) = Panic index_out_of_range).
  { intros H. unfold analyzelogAnalyses, analyzeTopFiveLogMessages.
    now rewrite (sumAnalyses_unpaired _ H). }
  split; [split|exact Hpanic].
  - intros [final H].
    destruct (Forall_Exists_dec slots_paired (fun a => ~ slots_paired a)
                slots_paired_dec (first :: rest)) as [Hall|Hex]; [assumption|].
    rewrite Hpanic in H; [discriminate|].
    intros Hall. apply Exists_exists in Hex as (a & Ha & Hna).
    rewrite Forall_forall in Hall. now apply Hna, Hall.
  - intros H. rewrite (analyzelogAnalyses_eq keys first rest H). eauto.
Qed.

Lemma analyzelogAnalyses_needs_paired_witness :
  let unpaired := mkLogAnalysis 1 (mkLogSeverityFrequency 0 1 0 0) ["x"] [] Time0 Time0 in
  ((exists final, analyzelogAnalyses [] [summaryA; unpaired] = Ok final)
   <-> Forall slots_paired [summaryA; unpaired]) /\
  analyzelogAnalyses [] [summaryA; unpaired] = Panic index_out_of_range.
Proof.
  intros unpaired.
  destruct (analyzelogAnalyses_needs_paired [] [summaryA; unpaired] ltac:(discriminate))
    as [H1 H2].
  split; [exact H1|]. apply H2. intros H.
  apply Forall_cons in H as [_ H]. apply Forall_cons in H as [H _].
  unfold slots_paired in H. simpl in H. lia.
Defined.

Section Collected.

Lemma lookups_seq {A : Type} (l : list A) n k :
  omap (fun i => l !! i) (seq k n) = take n (drop k l).
Proof.
  revert k. induction n as [|n IH]; intros k; [now rewrite take_0|].
  change (omap (fun i => l !! i) (seq k (S n)))
    with (match l !! k with
          | Some y => y :: omap (fun i => l !! i) (seq (S k) n)
          | None => omap (fun i => l !! i) (seq (S k) n)
          end).
  rewrite IH. destruct (l !! k) as [x|] eqn:E.
  - now rewrite (drop_S _ _ _ E).
  - rewrite (drop_ge l k) by (now apply lookup_ge_None).
    rewrite (drop_ge l (S k)) by (apply lookup_ge_None in E; lia).
    now rewrite !take_nil.
Qed.

(** What the receiving loop collects is what the goroutines sent, in the
    order of arrival. *)
Lemma received_Permutation {A : Type} (sent : list A) arrival :
  arrival ≡ₚ seq 0 (length sent) -> omap (fun i => sent !! i) arrival ≡ₚ sent.
Proof.
  intros H. rewrite H, lookups_seq, drop_0, take_ge; [reflexivity | lia].
Qed.

Lemma goroutines_fields fs fileKeys logPaths sent :
  goroutines fs fileKeys logPaths = Ok sent -> length fileKeys = length logPaths ->
  map numEntries sent = map (fun p => Z.of_nat (length (parseLogFile fs p))) logPaths /\
  map logSeverityFrequency sent
  = map (fun p => getLogSeverityFrequency (parseLogFile fs p)) logPaths.
Proof.
  unfold goroutines. revert fileKeys sent.
  induction logPaths as [|p ps IH]; intros [|k kss] sent; simpl; try discriminate.
  - now intros [= <-].
  - destruct (analyzeLogFile fs k p) as [a|msg] eqn:E; [|discriminate].
    simpl. destruct (mapM _ (zip ps kss)) as [rest|msg] eqn:Erest; [|discriminate].
    simpl. intros [= <-] [= Hlen]. simpl.
    destruct (IH kss rest Erest Hlen) as [H1 H2].
    destruct (analyzeLogFile_fields _ _ _ _ E) as (_ & _ & Hn & Hs).
    now rewrite H1, H2, Hn, Hs.
Qed.

Lemma goroutines_panic fs fileKeys logPaths i logPath ks msg :
  logPaths !! i = Some logPath -> fileKeys !! i = Some ks ->
  analyzeLogFile fs ks logPath = Panic msg ->
  exists msg', goroutines fs fileKeys logPaths = Panic msg'.
Proof.
  unfold goroutines. revert fileKeys i.
  induction logPaths as [|p ps IH]; intros fileKeys i Hp Hk Hpanic.
  { rewrite lookup_nil in Hp. discriminate. }
  destruct fileKeys as [|k kss]; [rewrite lookup_nil in Hk; discriminate|].
  simpl. destruct (analyzeLogFile fs k p) as [a|msg0] eqn:E; [|simpl; eauto].
  destruct i as [|i]; simpl in Hp, Hk.
  - injection Hp as <-. injection Hk as <-. congruence.
  - destruct (IH kss i Hp Hk Hpanic) as [msg' Hrest]. simpl. rewrite Hrest. simpl. eauto.
Qed.

Lemma wrap64_add_r a b : wrap64 (a + wrap64 b) = wrap64 (a + b).
Proof. rewrite Z.add_comm, wrap64_add_l. f_equal. lia. Qed.

Lemma wrap64_total_wrapped {A : Type} (g : A -> Z) (l : list A) :
  wrap64 (total (map (fun x => wrap64 (g x)) l)) = wrap64 (total (map g l)).
Proof.
  induction l as [|x l IH]; [reflexivity|]. unfold total in *. simpl.
  rewrite wrap64_add_l, <- wrap64_add_r, IH, wrap64_add_r. reflexivity.
Qed.

Lemma severityCount_bind {A : Type} (f : A -> list LogMessage) (l : list A) sev :
  severityCount (l ≫= f) sev = total (map (fun x => severityCount (f x) sev) l).
Proof.
  induction l as [|x l IH]; [reflexivity|]. unfold total in *. simpl.
  rewrite <- IH. unfold severityCount.
  change ((x :: l) ≫= f) with (f x ++ (l ≫= f)).
  rewrite filter_app, length_app, Nat2Z.inj_add. reflexivity.
Qed.

Lemma length_bind {A B : Type} (f : A -> list B) (l : list A) :
  Z.of_nat (length (l ≫= f)) = total (map (fun x => Z.of_nat (length (f x))) l).
Proof.
  induction l as [|x l IH]; [reflexivity|]. unfold total in *. simpl.
  rewrite <- IH. change ((x :: l) ≫= f) with (f x ++ (l ≫= f)).
  rewrite length_app, Nat2Z.inj_add. reflexivity.
Qed.

End Collected.

(** X15: when [analyzeLogFiles] returns a summary, its number of entries
    and its severity counts are those of all the records of all the files
    taken together, in int64, whatever the orders of arrival and of the
    map ranges. *)
Theorem analyzeLogFiles_counts fs fileKeys arrival keys logPaths final :
  length fileKeys = length logPaths -> arrival ≡ₚ seq 0 (length logPaths) ->
  analyzeLogFiles fs fileKeys arrival keys logPaths = Ok final ->
  numEntries final = wrap64 (getNumEntries (logPaths ≫= parseLogFile fs)) /\
  logSeverityFrequency final = getLogSeverityFrequency (logPaths ≫= parseLogFile fs).
Proof.
  intros Hlen Harr. unfold analyzeLogFiles.
  destruct (goroutines fs fileKeys logPaths) as [sent|msg] eqn:Hsent; [|discriminate].
  unfold mbind, outcome_bind. cbv zeta.
  pose proof (goroutines_length _ _ _ _ Hsent Hlen) as Hls.
  pose proof (goroutines_paired _ _ _ _ Hsent) as Hp.
  destruct (goroutines_fields _ _ _ _ Hsent Hlen) as [Hn Hs].
  rewrite <- Hls in Harr. pose proof (received_Permutation sent arrival Harr) as Hperm.
  pose proof (received_paired sent arrival Hp) as Hr.
  set (received := omap (fun i => sent !! i) arrival) in *. clearbody received.
  destruct received as [|first rest]; [discriminate|].
  rewrite (analyzelogAnalyses_eq keys first rest Hr). cbv zeta. intros [= <-].
  cbn [numEntries logSeverityFrequency].
  assert (Hsum : forall (g : LogAnalysis -> Z),
    foldl add64 (add64 0 (g first)) (map g rest) = wrap64 (total (map g sent))).
  { intros g. change (foldl add64 0 (map g (first :: rest)) = wrap64 (total (map g sent))).
    rewrite (foldl_add64_Permutation 0 _ (map g sent))
      by (now apply Permutation_map).
    rewrite foldl_add64. destruct sent as [|a sent'].
    - symmetry in Hperm. now apply Permutation_nil_cons in Hperm.
    - simpl map. cbv iota. f_equal. }
  rewrite (Hsum numEntries), (Hsum (fun a => debug (logSeverityFrequency a))),
    (Hsum (fun a => info (logSeverityFrequency a))),
    (Hsum (fun a => warning (logSeverityFrequency a))),
    (Hsum (fun a => error (logSeverityFrequency a))).
  rewrite getLogSeverityFrequency_severityCount. unfold getNumEntries.
  rewrite length_bind, !severityCount_bind.
  rewrite <- (map_map logSeverityFrequency debug), <- (map_map logSeverityFrequency info),
    <- (map_map logSeverityFrequency warning), <- (map_map logSeverityFrequency error).
  rewrite Hn, Hs, !map_map.
  split; [reflexivity|].
  f_equal; erewrite map_ext by (intros p; rewrite getLogSeverityFrequency_severityCount; reflexivity);
    cbn [debug info warning error]; apply wrap64_total_wrapped.
Qed.

Lemma analyzeLogFiles_counts_witness :
  numEntries
    (mkLogAnalysis 4 (mkLogSeverityFrequency 0 1 1 2)
       ["Database error"; "User logged in"; "Low memory"; ""] []
       63839664000000000000 63839664180000000000)
  = wrap64 (getNumEntries (["a.log"; "b.log"] ≫= parseLogFile scenario)) /\
  mkLogSeverityFrequency 0 1 1 2
  = getLogSeverityFrequency (["a.log"; "b.log"] ≫= parseLogFile scenario).
Proof.
  apply (analyzeLogFiles_counts scenario
           [["User logged in"; "Database error"]; ["Low memory"; "Database error"]]
           [1; 0]%nat ["Database error"; "User logged in"; "Low memory"; ""]
           ["a.log"; "b.log"]).
  - reflexivity.
  - apply perm_swap.
  - vm_compute. reflexivity.
Defined.

(** X16: when the goroutine of one path panics, the batch ends in a
    panic, whatever the other files hold: no summary of the files that
    could be read is returned. *)
Theorem analyzeLogFiles_one_panic fs fileKeys arrival keys logPaths i logPath ks msg :
  logPaths !! i = Some logPath -> fileKeys !! i = Some ks ->
  analyzeLogFile fs ks logPath = Panic msg ->
  exists msg', analyzeLogFiles fs fileKeys arrival keys logPaths = Panic msg'.
Proof.
  intros Hp Hk Hpanic.
  destruct (goroutines_panic _ _ _ _ _ _ _ Hp Hk Hpanic) as [msg' H].
  exists msg'. unfold analyzeLogFiles. now rewrite H.
Qed.

Lemma analyzeLogFiles_one_panic_witness :
  exists msg',
    analyzeLogFiles scenarioWithBadDate
      [["User logged in"; "Database error"]; ["started"]; ["Low memory"; "Database error"]]
      [0; 1; 2]%nat ["Database error"; "User logged in"; "Low memory"; "started"; ""]
      ["a.log"; "bad.log"; "b.log"]
    = Panic msg'.
Proof.
  apply (analyzeLogFiles_one_panic scenarioWithBadDate
           [["User logged in"; "Database error"]; ["started"]; ["Low memory"; "Database error"]]
           [0; 1; 2]%nat ["Database error"; "User logged in"; "Low memory"; "started"; ""]
           ["a.log"; "bad.log"; "b.log"] 1%nat "bad.log" ["started"]
           "Unable to parse start time").
  - reflexivity.
  - reflexivity.
  - vm_compute. reflexivity.
Defined.

(** X17: without a path, [analyzeLogFiles] ends in the panic
    "No analysis found". *)
Theorem analyzeLogFiles_no_path fs fileKeys arrival keys :
  analyzeLogFiles fs fileKeys arrival keys [] = Panic "No analysis found".
Proof.
  unfold analyzeLogFiles, goroutines. simpl.
  assert (H : omap (fun i : nat => (@nil LogAnalysis) !! i) arrival = []).
  { induction arrival as [|i l IH]; [reflexivity|].
    change (omap (fun i : nat => (@nil LogAnalysis) !! i) (i :: l))
      with (match (@nil LogAnalysis) !! i with
            | Some y => y :: omap (fun i : nat => (@nil LogAnalysis) !! i) l
            | None => omap (fun i : nat => (@nil LogAnalysis) !! i) l
            end).
    now rewrite lookup_nil. }
  unfold mbind, outcome_bind, mret, outcome_ret. cbv zeta. now rewrite H.
Qed.

Lemma analyzelogAnalyses_Ok_paired keys logAnalyses final :
  analyzelogAnalyses keys logAnalyses = Ok final -> Forall slots_paired logAnalyses.
Proof.
  intros H. destruct logAnalyses as [|first rest]; [constructor|].
  destruct (Forall_Exists_dec slots_paired (fun a => ~ slots_paired a)
              slots_paired_dec (first :: rest)) as [Hall|Hex]; [assumption|].
  assert (Hnot : ~ Forall slots_paired (first :: rest)).
  { intros Hall. apply Exists_exists in Hex as (a & Ha & Hna).
    rewrite Forall_forall in Hall. now apply Hna, Hall. }
  unfold analyzelogAnalyses, analyzeTopFiveLogMessages in H.
  rewrite (sumAnalyses_unpaired _ Hnot) in H. discriminate H.
Qed.

(** X18: the summary that [analyzelogAnalyses] returns carries no
    frequency and at most five messages, no message twice, and every one
    of them stands in one of the first five message slots of a summary it
    was given: a message that is in no file's five slots is never in the
    result, however often it occurs. *)
Theorem analyzelogAnalyses_messages keys logAnalyses final :
  (forall rankedLogMessages,
     sumAnalyses logAnalyses = Ok rankedLogMessages -> map_range rankedLogMessages keys) ->
  analyzelogAnalyses keys logAnalyses = Ok final ->
  topFiveLogMessageFrequencies final = [] /\
  (length (topFiveLogMessages final) <= 5)%nat /\
  NoDup (topFiveLogMessages final) /\
  forall text, text ∈ topFiveLogMessages final ->
    exists logAnalysis, logAnalysis ∈ logAnalyses /\
                        text ∈ take 5 (topFiveLogMessages logAnalysis).
Proof.
  intros Hkeys Hfinal.
  destruct logAnalyses as [|first rest]; [discriminate|].
  pose proof (analyzelogAnalyses_Ok_paired _ _ _ Hfinal) as Hp.
  specialize (Hkeys _ (sumAnalyses_paired _ Hp)).
  rewrite (analyzelogAnalyses_eq keys first rest Hp) in Hfinal. cbv zeta in Hfinal.
  injection Hfinal as <-. cbn [topFiveLogMessages topFiveLogMessageFrequencies].
  destruct (take_five_ranks (get (tally ∅ (allSlots (first :: rest)))) keys
              (map_range_NoDup _ _ Hkeys)) as (Hnd & Hsub & Hlen & _ & _).
  split; [reflexivity|]. split; [rewrite length_take; lia|]. split; [assumption|].
  intros text Htext. apply Hsub in Htext.
  apply (map_range_elem_of _ _ text Hkeys) in Htext. apply tally_is_Some in Htext.
  apply list_elem_of_fmap in Htext as ([k v] & -> & Hslot).
  unfold allSlots in Hslot. apply list_elem_of_bind in Hslot as (a & Hslot & Ha).
  exists a. split; [assumption|]. unfold slots in Hslot.
  apply elem_of_take in Hslot as (i & Hi & Hlt). apply elem_of_take. exists i.
  split; [|assumption]. rewrite lookup_zip_with in Hi.
  destruct (topFiveLogMessages a !! i) as [x|]; [|discriminate]. simpl in Hi.
  destruct (topFiveLogMessageFrequencies a !! i); [|discriminate]. simpl in Hi.
  now injection Hi as -> _.
Qed.

Lemma analyzelogAnalyses_messages_witness :
  let final :=
    mkLogAnalysis 4 (mkLogSeverityFrequency 0 1 1 2)
      ["Database error"; "User logged in"; "Low memory"; ""] []
      63839664000000000000 63839664180000000000 in
  topFiveLogMessageFrequencies final = [] /\
  (length (topFiveLogMessages final) <= 5)%nat /\
  NoDup (topFiveLogMessages final) /\
  forall text, text ∈ topFiveLogMessages final ->
    exists logAnalysis, logAnalysis ∈ [summaryA; summaryB] /\
                        text ∈ take 5 (topFiveLogMessages logAnalysis).
Proof.
  apply (analyzelogAnalyses_messages
           ["Database error"; "User logged in"; "Low memory"; ""] [summaryA; summaryB]).
  - intros m Hm. rewrite (sumAnalyses_paired _ summaryAB_paired) in Hm. injection Hm as <-.
    apply map_range_check. vm_compute. reflexivity.
  - vm_compute. reflexivity.
Defined.

(** X19: when no two texts of the reducer's map have the same summed
    frequency, [analyzelogAnalyses] returns the same result for every
    order in which that map may be ranged. *)
Theorem analyzelogAnalyses_determined keys keys' logAnalyses rankedLogMessages :
  sumAnalyses logAnalyses = Ok rankedLogMessages ->
  map_range rankedLogMessages keys -> map_range rankedLogMessages keys' ->
  (forall a b, a ∈ keys -> b ∈ keys ->
               get rankedLogMessages a = get rankedLogMessages b -> a = b) ->
  analyzelogAnalyses keys logAnalyses = analyzelogAnalyses keys' logAnalyses.
Proof.
  intros Hm H H' Hinj.
  destruct logAnalyses as [|first rest]; [reflexivity|].
  pose proof (sumAnalyses_Ok_paired _ _ Hm) as Hp.
  rewrite (sumAnalyses_paired _ Hp) in Hm. injection Hm as <-.
  rewrite !(analyzelogAnalyses_eq _ first rest Hp). cbv zeta.
  rewrite (SliceStable_unique (get (tally ∅ (allSlots (first :: rest)))) keys keys');
    [reflexivity | | exact Hinj].
  unfold map_range in *. now rewrite H, H'.
Qed.

Lemma analyzelogAnalyses_determined_witness :
  let only := mkLogAnalysis 3 (mkLogSeverityFrequency 0 0 0 3)
                ["Database error"; "Disk full"; ""; ""; ""] [2; 1; 0; 0; 0] Time0 Time0 in
  analyzelogAnalyses ["Database error"; "Disk full"; ""] [only]
  = analyzelogAnalyses [""; "Disk full"; "Database error"] [only].
Proof.
  intros only.
  assert (Hp : Forall slots_paired [only]).
  { repeat constructor; unfold slots_paired; simpl; lia. }
  apply (analyzelogAnalyses_determined
           ["Database error"; "Disk full"; ""] [""; "Disk full"; "Database error"] [only]
           (tally ∅ (allSlots [only]))).
  - now apply sumAnalyses_paired.
  - apply map_range_check. vm_compute. reflexivity.
  - apply map_range_check. vm_compute. reflexivity.
  - intros a b Ha Hb.
    repeat (apply elem_of_cons in Ha as [->|Ha]);
      repeat (apply elem_of_cons in Hb as [->|Hb]);
      first [reflexivity | vm_compute; discriminate | inversion Ha | inversion Hb].
Defined.

(* ===================================================================== *)
(** * The printed report *)
(* ===================================================================== *)

Section Printed.
Variable Format : Time -> string.

(** The loop of [printLogAnalysis] stays inside the slice. *)
Lemma print_loop (messages : list string) stdout n :
  (n <= length messages)%nat ->
  foldl (fun acc idx =>
           stdout ← acc;
           message ← index messages idx;
           Ok (stdout ++ ["   " +:+ Itoa (Z.of_nat idx + 1) +:+ ". " +:+ message]))
        (Ok stdout) (seq 0 n)
  = Ok (stdout ++ imap messageLine (take n messages)).
Proof.
  induction n as [|n IH]; intros Hn.
  - cbn [seq foldl]. now rewrite take_0, app_nil_r.
  - rewrite seq_S, foldl_app, IH by lia. cbn [foldl Nat.add].
    destruct (lookup_lt_is_Some_2 messages n ltac:(lia)) as [message Hm].
    rewrite (take_S_r _ _ _ Hm), imap_app, length_take, Nat.min_l by lia.
    unfold index. rewrite Hm. cbn [imap]. rewrite Nat.add_0_r, app_assoc. reflexivity.
Qed.

Lemma printLogAnalysis_eq logAnalysis :
  printLogAnalysis Format logAnalysis
  = Ok ([ "Number of Entries: " +:+ Itoa (numEntries logAnalysis);
          "Log Severity Frequency: ";
          "   DEBUG: " +:+ FormatInt (debug (logSeverityFrequency logAnalysis));
          "   INFO: " +:+ FormatInt (info (logSeverityFrequency logAnalysis));
          "   WARNING: " +:+ FormatInt (warning (logSeverityFrequency logAnalysis));
          "   ERROR: " +:+ FormatInt (error (logSeverityFrequency logAnalysis));
          "Top Five Log Messages: " ]
        ++ imap messageLine (take 5 (topFiveLogMessages logAnalysis))
        ++ [ "Start Date/Time: " +:+ Format (startTime logAnalysis);
             "End Date/Time: " +:+ Format (endTime logAnalysis) ]).
Proof.
  unfold printLogAnalysis. cbv zeta.
  destruct (Nat.leb_spec 5 (length (topFiveLogMessages logAnalysis))) as [H|H].
  - rewrite print_loop by assumption. cbn [mbind outcome_bind]. now rewrite <- app_assoc.
  - rewrite print_loop by lia. cbn [mbind outcome_bind].
    rewrite firstn_all, (take_ge _ 5) by lia. now rewrite <- app_assoc.
Qed.

End Printed.

(** X20: [printLogAnalysis] never indexes past the messages of the
    summary, whatever their number: it prints seven lines, then one line
    for each of the first five messages, numbered from 1 in the order of
    the slice, then the two lines of the times.  The frequencies of the
    summary and its messages past the fifth are not printed: two
    summaries that differ only there give the same output. *)
Theorem printLogAnalysis_lines (Format : Time -> string) logAnalysis :
  exists stdout,
    printLogAnalysis Format logAnalysis = Ok stdout /\
    length stdout = (9 + Nat.min 5 (length (topFiveLogMessages logAnalysis)))%nat /\
    (forall index message,
       (index < 5)%nat -> topFiveLogMessages logAnalysis !! index = Some message ->
       stdout !! (7 + index)%nat
       = Some ("   " +:+ Itoa (Z.of_nat index + 1) +:+ ". " +:+ message)) /\
    forall messages frequencies,
      take 5 messages = take 5 (topFiveLogMessages logAnalysis) ->
      printLogAnalysis Format
        (mkLogAnalysis (numEntries logAnalysis) (logSeverityFrequency logAnalysis)
           messages frequencies (startTime logAnalysis) (endTime logAnalysis))
      = Ok stdout.
Proof.
  eexists. split; [apply printLogAnalysis_eq|]. split; [|split].
  - cbn [length app]. rewrite length_app, length_imap, length_take. simpl. lia.
  - intros index message Hlt Hm.
    change (7 + index)%nat with (length ["a"; "b"; "c"; "d"; "e"; "f"; "g"] + index)%nat.
    rewrite (lookup_app_r _ _ (_ + index)) by (simpl; lia).
    cbn [length]. replace (7 + index - 7)%nat with index by lia.
    rewrite lookup_app_l by (rewrite length_imap, length_take;
                             apply lookup_lt_Some in Hm; lia).
    rewrite list_lookup_imap, lookup_take_lt, Hm by assumption. reflexivity.
  - intros messages frequencies Htake. rewrite printLogAnalysis_eq.
    cbn [numEntries logSeverityFrequency topFiveLogMessages startTime endTime].
    now rewrite Htake.
Qed.

(* ===================================================================== *)
(** * The batch under every choice of the runtime *)
(* ===================================================================== *)

Section Runs.







End Runs.





(** C9 as stated fails: a list of one summary that has a message and no
    frequency is not empty, and [analyzelogAnalyses] ends in the panic of
    an index out of range on it, whatever the order of the map range.
    [analyzeLogFile] builds no such summary. *)
Lemma analyzelogAnalyses_fails_on_missing_frequency :
  let logAnalysis :=
    mkLogAnalysis 1 (mkLogSeverityFrequency 0 0 0 1) ["Database error"] []
                  63839664060000000000 63839664060000000000 in
  [logAnalysis] <> [] /\
  ~ slots_paired logAnalysis /\
  forall keys, analyzelogAnalyses keys [logAnalysis] = Panic index_out_of_range.
Proof.
  intros logAnalysis. split; [discriminate|]. split.
  - unfold slots_paired. simpl. lia.
  - intros keys. reflexivity.
Qed.
